(** * Taiga: the search list item delegate

    A shallow embedding of [src/gui/search/search_list_item_delegate.cpp]:
    the delegate that paints one card per search result (poster, title bar,
    summary line, details block, synopsis) and reports the cell size to the
    enclosing list view.

    The delegate is thin code over the GUI toolkit.  What the toolkit
    computes (font metrics, elision, the default size hint, number
    formatting) is not part of the repository; it enters the development
    as the fields of the class [Toolkit].  What the delegate itself does
    (the rectangles it derives, the fonts and pens it selects, the strings
    it hands to the painter, the order of the calls) is modelled call by
    call: a painter carries its current state, its stack of saved states
    and the trace of drawing calls it has received. *)

From Stdlib Require Import ZArith Lia Bool List Ascii String DecimalString.
Import ListNotations.

Local Open Scope string_scope.
Local Open Scope list_scope.
Local Open Scope Z_scope.

(** ** Toolkit value types *)

(** [QString] is kept as a Rocq string; a character outside ASCII (the
    middle dot of the summary format) is its UTF-8 byte sequence. *)
Definition QString := string.

(** [QRect] stores its corners, as the toolkit does: the right and bottom
    coordinates are inclusive, so the width is [x2 - x1 + 1]. *)
Module QRect.

Record t : Type := make { x1 : Z; y1 : Z; x2 : Z; y2 : Z }.

Definition left (r : t) : Z := x1 r.
Definition top (r : t) : Z := y1 r.
Definition right (r : t) : Z := x2 r.
Definition bottom (r : t) : Z := y2 r.

Definition width (r : t) : Z := x2 r - x1 r + 1.
Definition height (r : t) : Z := y2 r - y1 r + 1.

Definition setWidth (w : Z) (r : t) : t :=
  make (x1 r) (y1 r) (x1 r + w - 1) (y2 r).

Definition setHeight (h : Z) (r : t) : t :=
  make (x1 r) (y1 r) (x2 r) (y1 r + h - 1).

Definition adjust (dx1 dy1 dx2 dy2 : Z) (r : t) : t :=
  make (x1 r + dx1) (y1 r + dy1) (x2 r + dx2) (y2 r + dy2).

(** The rectangle at [(x, y)] of the given size. *)
Definition of_size (x y w h : Z) : t := make x y (x + w - 1) (y + h - 1).

End QRect.

Module QSize.

Record t : Type := make { width : Z; height : Z }.

End QSize.

(** ** The size hint: [SearchListItemDelegate::itemSize] *)

(** The host list view, as far as the delegate reads it. *)
Record QListView : Type := { geometry : QRect.t }.

(** An operation either completes or dereferences a null pointer. *)
Inductive Result (A : Type) : Type :=
| Ok (a : A)
| NullDeref.

Arguments Ok {A} a.
Arguments NullDeref {A}.

Definition maxWidth : Z := 360.
Definition spacing : Z := 18.
Definition height : Z := 210.

(** The three successive tests of [itemSize], in source order. *)
Definition columns (w : Z) : Z :=
  let columns := 1 in
  let columns := if maxWidth * 2 <? w then 2 else columns in
  let columns := if maxWidth * 3 <? w then 3 else columns in
  let columns := if maxWidth * 4 <? w then 4 else columns in
  columns.

(** [int] division truncates towards zero: [Z.quot]. *)
Definition itemWidth (w : Z) : Z :=
  Z.quot (w - spacing * (columns w + 2)) (columns w).

Definition itemSize_of (view : QListView) : QSize.t :=
  QSize.make (itemWidth (QRect.width (geometry view))) height.

(** The same computation on 32-bit [int]s, every operation wrapped. *)
Definition wrap32 (z : Z) : Z := (z + 2 ^ 31) mod 2 ^ 32 - 2 ^ 31.

Definition int_range (z : Z) : Prop := - 2 ^ 31 <= z < 2 ^ 31.

Definition itemWidth32 (w : Z) : Z :=
  let c := columns w in
  wrap32 (Z.quot (wrap32 (w - wrap32 (spacing * wrap32 (c + 2)))) c).

(** ** Toolkit value types used while painting *)

Definition QColor := Z.

Record QBrush : Type := { color : QColor }.

(** The palette roles the delegate reads. *)
Record QPalette : Type := {
  highlight : QBrush;
  mid : QBrush;
  alternateBase : QBrush;
  dark : QBrush;
  placeholderText : QBrush
}.

Module QFont.

Record t : Type := make { family : QString; pointSize : Z; weight : Z }.

(** [QFont::Weight] *)
Definition Normal : Z := 400.
Definition DemiBold : Z := 600.
Definition Bold : Z := 700.

Definition setWeight (w : Z) (f : t) : t := make (family f) (pointSize f) w.

(** The toolkit ignores a point size that is not positive. *)
Definition setPointSize (p : Z) (f : t) : t :=
  if p <=? 0 then f else make (family f) p (weight f).

End QFont.

Inductive TextElideMode : Type := ElideLeft | ElideRight | ElideMiddle | ElideNone.

(** [Qt::AlignmentFlag] and [Qt::TextFlag] *)
Definition AlignVCenter : Z := 128.
Definition TextSingleLine : Z := 256.
Definition TextWordWrap : Z := 4096.

(** [QStyle::State_Selected] *)
Definition State_Selected : Z := 32768.

Inductive PathElement : Type :=
| RoundedRect (r : QRect.t) (xRadius yRadius : Z).

Definition QPainterPath := list PathElement.

Definition addRoundedRect (r : QRect.t) (xRadius yRadius : Z)
  (path : QPainterPath) : QPainterPath :=
  path ++ [RoundedRect r xRadius yRadius].

(** Decoded image data; a null [QImage] or [QPixmap] is [None]. *)
Record ImageData : Type := {
  image_width : Z;
  image_height : Z;
  image_bits : list Z
}.

Definition QImage := option ImageData.
Definition QPixmap := option ImageData.

Definition isNull (p : option ImageData) : bool :=
  match p with Some _ => false | None => true end.

Definition fromImage (img : ImageData) : QPixmap := Some img.

(** What [QImageReader::read] finds at a path: the decoded image, or
    nothing when the file is missing or cannot be decoded. *)
Definition FileSystem := string -> option ImageData.

Definition QImageReader_read (fs : FileSystem) (path : string) : QImage := fs path.

Record QStyleOptionViewItem : Type := {
  rect : QRect.t;
  state : Z;
  palette : QPalette
}.

(** The theme singleton, as far as the delegate reads it. *)
Record Theme : Type := { isDark : bool }.

(** ** The painter *)

(** The part of the painter's context the delegate touches. *)
Record PainterState : Type := {
  pen : QColor;
  font : QFont.t;
  clipPath : option QPainterPath
}.

Inductive DrawCall : Type :=
| FillRect (r : QRect.t) (b : QBrush)
| DrawPixmap (r : QRect.t) (pm : QPixmap)
| DrawText (r : QRect.t) (flags : Z) (text : QString).

(** A drawing call together with the painter state it was issued under. *)
Record Drawn : Type := { ctx : PainterState; call : DrawCall }.

(** The painter: its current state, the stack of [save]d states, and the
    drawing calls received so far, oldest first. *)
Record QPainter : Type := {
  current : PainterState;
  saved : list PainterState;
  trace : list Drawn
}.

(** Painting code: a state transformer over the painter that may stop at
    a null pointer. *)
Definition Paint (A : Type) : Type := QPainter -> Result (A * QPainter).

Definition ret {A : Type} (a : A) : Paint A := fun p => Ok (a, p).

Definition bind {A B : Type} (m : Paint A) (k : A -> Paint B) : Paint B :=
  fun p => match m p with
           | Ok (a, p') => k a p'
           | NullDeref => NullDeref
           end.

Declare Scope paint_scope.
Delimit Scope paint_scope with paint.

Notation "x <- m ;; k" := (bind m (fun x => k))
  (at level 100, m at next level, right associativity) : paint_scope.
Notation "m ;; k" := (bind m (fun _ => k))
  (at level 100, right associativity) : paint_scope.

(** [p->member] on a pointer that may be null. *)
Definition deref {A : Type} (ptr : option A) : Paint A :=
  fun p => match ptr with
           | Some a => Ok (a, p)
           | None => NullDeref
           end.

Definition save : Paint unit :=
  fun p => Ok (tt, {| current := current p;
                      saved := current p :: saved p;
                      trace := trace p |}).

(** An unbalanced [restore] is ignored by the toolkit. *)
Definition restore : Paint unit :=
  fun p => match saved p with
           | s :: rest => Ok (tt, {| current := s; saved := rest; trace := trace p |})
           | [] => Ok (tt, p)
           end.

Definition modify (f : PainterState -> PainterState) : Paint unit :=
  fun p => Ok (tt, {| current := f (current p); saved := saved p; trace := trace p |}).

Definition setClipPath (path : QPainterPath) : Paint unit :=
  modify (fun s => {| pen := pen s; font := font s; clipPath := Some path |}).

Definition setFont (f : QFont.t) : Paint unit :=
  modify (fun s => {| pen := pen s; font := f; clipPath := clipPath s |}).

Definition setPen (c : QColor) : Paint unit :=
  modify (fun s => {| pen := c; font := font s; clipPath := clipPath s |}).

Definition painter_font : Paint QFont.t := fun p => Ok (font (current p), p).

Definition draw (c : DrawCall) : Paint unit :=
  fun p => Ok (tt, {| current := current p;
                      saved := saved p;
                      trace := trace p ++ [{| ctx := current p; call := c |}] |}).

Definition fillRect (r : QRect.t) (b : QBrush) : Paint unit := draw (FillRect r b).
Definition drawPixmap (r : QRect.t) (pm : QPixmap) : Paint unit := draw (DrawPixmap r pm).
Definition drawText (r : QRect.t) (flags : Z) (text : QString) : Paint unit :=
  draw (DrawText r flags text).

(** Whether a call puts an image on the surface: the toolkit returns at
    once from [drawPixmap] when the pixmap is null. *)
Definition draws_image (c : DrawCall) : bool :=
  match c with
  | DrawPixmap _ pm => negb (isNull pm)
  | _ => false
  end.

(** Modelled from the spec: [gui/utils/painter_state_saver.hpp] is not
    among the sources.  The painter context "is saved and restored around
    each paint call": the guard object saves the painter when it is
    constructed and restores it when it leaves scope. *)
Definition PainterStateSaver_enter : Paint unit := save.
Definition PainterStateSaver_leave : Paint unit := restore.

(** ** [QString::arg] *)

(** [QString::arg] replaces every occurrence of the lowest-numbered place
    marker.  A marker is a percent sign, an optional [L], and one or two
    decimal digits.  The string is first cut into literal characters and
    markers by a scanner that remembers how much of a marker it has seen. *)
Inductive Token : Type :=
| Lit (c : ascii)
| Marker (n : nat) (text : string).

Inductive Scan : Type :=
| Plain
| Pct
| PctL
| PctD (text : string) (n : nat).

Definition digitValue (c : ascii) : option nat :=
  let n := nat_of_ascii c in
  if (Nat.leb 48 n && Nat.leb n 57)%bool then Some (n - 48)%nat else None.

Definition step_plain (c : ascii) : list Token * Scan :=
  if Ascii.eqb c "%" then ([], Pct) else ([Lit c], Plain).

Definition step (st : Scan) (c : ascii) : list Token * Scan :=
  match st with
  | Plain => step_plain c
  | Pct =>
      if Ascii.eqb c "L" then ([], PctL)
      else match digitValue c with
           | Some n => ([], PctD (String "%" (String c "")) n)
           | None => let (out, st') := step_plain c in (Lit "%" :: out, st')
           end
  | PctL =>
      match digitValue c with
      | Some n => ([], PctD (String "%" (String "L" (String c ""))) n)
      | None => let (out, st') := step_plain c in (Lit "%" :: Lit "L" :: out, st')
      end
  | PctD text n =>
      match digitValue c with
      | Some m => ([Marker (10 * n + m) (text ++ String c "")%string], Plain)
      | None => let (out, st') := step_plain c in (Marker n text :: out, st')
      end
  end.

Definition flush (st : Scan) : list Token :=
  match st with
  | Plain => []
  | Pct => [Lit "%"]
  | PctL => [Lit "%"; Lit "L"]
  | PctD text n => [Marker n text]
  end.

Fixpoint tokens (st : Scan) (s : string) : list Token :=
  match s with
  | EmptyString => flush st
  | String c rest => let (out, st') := step st c in out ++ tokens st' rest
  end.

Fixpoint lowest (ts : list Token) : option nat :=
  match ts with
  | [] => None
  | Lit _ :: rest => lowest rest
  | Marker n _ :: rest =>
      match lowest rest with
      | Some m => Some (Nat.min n m)
      | None => Some n
      end
  end.

Fixpoint substitute (k : nat) (a : string) (ts : list Token) : string :=
  match ts with
  | [] => ""
  | Lit c :: rest => String c (substitute k a rest)
  | Marker n text :: rest =>
      ((if Nat.eqb n k then a else text) ++ substitute k a rest)%string
  end.

(** A string without a marker is returned as it is. *)
Definition arg (s a : QString) : QString :=
  match lowest (tokens Plain s) with
  | Some k => substitute k a (tokens Plain s)
  | None => s
  end.

(** Whether a string contains a percent sign. *)
Fixpoint has_percent (s : string) : bool :=
  match s with
  | EmptyString => false
  | String c rest => Ascii.eqb c "%" || has_percent rest
  end.

(** The decimal text of an [int], as [QString::arg(int)] inserts it. *)
Definition number (z : Z) : QString := NilZero.string_of_int (Z.to_int z).

(** The summary format of the delegate. *)
Definition summary_format : QString := "TV · %1 episodes · %2".

(** The label and value texts of the details block. *)
Definition titles : QString :=
  String.concat (String "010" "") ["Aired:"; "Genres:"; "Studios:"].

Definition values : QString :=
  String.concat (String "010" "")
    ["Jan 7, 2024 to Mar 31, 2024 (Airing)"; "Action, Adventure, Fantasy"; "A-1 Pictures"].

(** ** The model, the index and the delegate *)

Section Model.

(** The type of [Anime::score]; the record is declared outside the
    sources, and the text [QString::arg] produces for a score is the
    toolkit's number formatting. *)
Variable Score : Type.

(** The item record, as far as the delegate reads it. *)
Record Anime : Type := {
  episode_count : Z;
  score : Score;
  synopsis : string
}.

(** The list model: [getAnime] returns a pointer that may be null, [data]
    the text of the display role. *)
Record SearchListModel : Type := {
  getAnime_at : Z -> Z -> option Anime;
  data_display : Z -> Z -> QString
}.

Record QModelIndex : Type := {
  row : Z;
  column : Z;
  model : option SearchListModel
}.

Definition isValid (index : QModelIndex) : bool :=
  (0 <=? row index) && (0 <=? column index)
  && match model index with Some _ => true | None => false end.

Definition getAnime (m : SearchListModel) (index : QModelIndex) : option Anime :=
  getAnime_at m (row index) (column index).

(** [index.data(Qt::DisplayRole).toString()]: an index without a model
    yields an invalid variant, whose text is empty. *)
Definition data_DisplayRole (index : QModelIndex) : QString :=
  match model index with
  | Some m => data_display m (row index) (column index)
  | None => ""
  end.

(** What the delegate asks of the toolkit. *)
Class Toolkit : Type := {
  (** [QFontMetrics(font).height()] *)
  fm_height : QFont.t -> Z;
  (** [QFontMetrics(font).boundingRect(text).width()] *)
  fm_boundingRect_width : QFont.t -> QString -> Z;
  (** [QFontMetrics(font).horizontalAdvance(text)] *)
  fm_horizontalAdvance : QFont.t -> QString -> Z;
  (** [QFontMetrics(font).elidedText(text, mode, width)] *)
  fm_elidedText : QFont.t -> QString -> TextElideMode -> Z -> QString;
  (** [QStyledItemDelegate::sizeHint] *)
  QStyledItemDelegate_sizeHint : QStyleOptionViewItem -> QModelIndex -> QSize.t;
  (** the text [QString::arg] inserts for a score *)
  score_text : Score -> QString
}.

Context {tk : Toolkit}.

Record SearchListItemDelegate : Type := {
  parent : option QListView;
  m_pixmap : QPixmap
}.

(** The constructor: the pixmap is assigned only when the image was
    read. *)
Definition new_SearchListItemDelegate (fs : FileSystem) (parent : option QListView)
  : SearchListItemDelegate :=
  let image := QImageReader_read fs "./data/poster.jpg" in
  {| parent := parent;
     m_pixmap := match image with
                 | Some img => fromImage img
                 | None => None
                 end |}.

Definition selected (option : QStyleOptionViewItem) : bool :=
  negb (Z.land (state option) State_Selected =? 0).

Local Open Scope paint_scope.

Definition paint (theme : Theme) (this : SearchListItemDelegate)
  (option : QStyleOptionViewItem) (index : QModelIndex) : Paint unit :=
  PainterStateSaver_enter ;;
  model <- deref (model index) ;;
  let item := getAnime model index in
  let opt := option in
  let rect := rect opt in
  let path := addRoundedRect rect 4 4 [] in
  setClipPath path ;;
  (* Background *)
  (if selected option then fillRect rect (highlight (palette opt))
   else if isDark theme then fillRect rect (mid (palette opt))
   else fillRect rect (alternateBase (palette opt))) ;;
  (* Poster *)
  let posterRect := QRect.setWidth 140 rect in
  (if isDark theme then fillRect posterRect (dark (palette opt))
   else fillRect posterRect (mid (palette opt))) ;;
  drawPixmap posterRect (m_pixmap this) ;;
  let rect := QRect.adjust 140 0 0 0 rect in
  font <- painter_font ;;
  (* Title *)
  let titleRect := QRect.setHeight 24 rect in
  fillRect titleRect (dark (palette opt)) ;;
  let titleRect := QRect.adjust 8 0 (-8) 0 titleRect in
  titleFont <- painter_font ;;
  let titleFont := QFont.setWeight QFont.DemiBold titleFont in
  setFont titleFont ;;
  let title := data_DisplayRole index in
  metrics <- painter_font ;;
  let elidedTitle := fm_elidedText metrics title ElideRight (QRect.width titleRect) in
  drawText titleRect (Z.lor AlignVCenter TextSingleLine) elidedTitle ;;
  let rect := QRect.adjust 8 (24 + 8) (-8) (-8) rect in
  (* Summary *)
  item <- deref item ;;
  let summary := arg (arg summary_format (number (episode_count item)))
                     (score_text (score item)) in
  metrics <- painter_font ;;
  let summaryRect := QRect.setHeight (fm_height metrics) rect in
  setFont font ;;
  drawText summaryRect (Z.lor AlignVCenter TextSingleLine) summary ;;
  let rect := QRect.adjust 0 (QRect.height summaryRect + 8) 0 0 rect in
  detailsFont <- painter_font ;;
  (* Details *)
  let detailsFont := QFont.setWeight QFont.DemiBold detailsFont in
  setFont detailsFont ;;
  metrics <- painter_font ;;
  let titlesRect := QRect.setHeight (fm_height metrics * 3) rect in
  let titlesRect := QRect.setWidth (fm_boundingRect_width metrics "Studios:") titlesRect in
  drawText titlesRect 0 titles ;;
  let detailsFont := QFont.setWeight QFont.Normal detailsFont in
  setFont detailsFont ;;
  let valuesRect := QRect.setHeight (fm_height metrics * 3) rect in
  let valuesRect := QRect.adjust (QRect.width titlesRect + 8) 0 0 0 valuesRect in
  drawText valuesRect 0 values ;;
  let rect := QRect.adjust 0 (QRect.height titlesRect + 8) 0 0 rect in
  (* Synopsis *)
  let synopsis := synopsis item in
  setPen (color (placeholderText (palette opt))) ;;
  let detailsFont := QFont.setPointSize 8 detailsFont in
  setFont detailsFont ;;
  metrics <- painter_font ;;
  let synopsisRect :=
    QRect.setHeight (Z.min (QRect.height rect) (fm_height metrics * 5)) rect in
  drawText synopsisRect TextWordWrap synopsis ;;
  PainterStateSaver_leave.

(** [itemSize] reads the geometry through the parent pointer. *)
Definition itemSize (this : SearchListItemDelegate) : Result QSize.t :=
  match parent this with
  | Some view => Ok (itemSize_of view)
  | None => NullDeref
  end.

Definition sizeHint (this : SearchListItemDelegate)
  (option : QStyleOptionViewItem) (index : QModelIndex) : Result QSize.t :=
  if isValid index then itemSize this
  else Ok (QStyledItemDelegate_sizeHint option index).

End Model.

Arguments episode_count {Score} _.
Arguments score {Score} _.
Arguments synopsis {Score} _.
Arguments getAnime_at {Score} _ _ _.
Arguments data_display {Score} _ _ _.
Arguments row {Score} _.
Arguments column {Score} _.
Arguments model {Score} _.
Arguments isValid {Score} _.
Arguments getAnime {Score} _ _.
Arguments data_DisplayRole {Score} _.
Arguments paint {Score tk} _ _ _ _ _.
Arguments sizeHint {Score tk} _ _ _.
Arguments fm_height {Score Toolkit} _.
Arguments fm_boundingRect_width {Score Toolkit} _ _.
Arguments fm_horizontalAdvance {Score Toolkit} _ _.
Arguments fm_elidedText {Score Toolkit} _ _ _ _.
Arguments QStyledItemDelegate_sizeHint {Score Toolkit} _ _.
Arguments score_text {Score Toolkit} _.

(** ** The card layout, rectangle by rectangle

    The rectangles [paint] derives from the cell, named after its local
    variables; [paint_trace] below shows that these are the rectangles the
    painter receives. *)

Section Layout.

Context {Score : Type} {tk : Toolkit Score}.

Variable option : QStyleOptionViewItem.
(** the painter's font on entry *)
Variable font0 : QFont.t.

Definition posterRect : QRect.t := QRect.setWidth 140 (rect option).

(** the cell to the right of the poster *)
Definition rect_poster : QRect.t := QRect.adjust 140 0 0 0 (rect option).

Definition titleFont : QFont.t := QFont.setWeight QFont.DemiBold font0.

(** the title bar as it is filled, and as the text is laid out in it *)
Definition titleBar : QRect.t := QRect.setHeight 24 rect_poster.
Definition titleRect : QRect.t := QRect.adjust 8 0 (-8) 0 titleBar.

Definition rect_title : QRect.t := QRect.adjust 8 (24 + 8) (-8) (-8) rect_poster.

Definition summaryRect : QRect.t := QRect.setHeight (fm_height titleFont) rect_title.

Definition rect_summary : QRect.t :=
  QRect.adjust 0 (QRect.height summaryRect + 8) 0 0 rect_title.

Definition labelFont : QFont.t := QFont.setWeight QFont.DemiBold font0.
Definition valueFont : QFont.t := QFont.setWeight QFont.Normal labelFont.

Definition titlesRect : QRect.t :=
  QRect.setWidth (fm_boundingRect_width labelFont "Studios:")
    (QRect.setHeight (fm_height labelFont * 3) rect_summary).

Definition valuesRect : QRect.t :=
  QRect.adjust (QRect.width titlesRect + 8) 0 0 0
    (QRect.setHeight (fm_height labelFont * 3) rect_summary).

Definition rect_details : QRect.t :=
  QRect.adjust 0 (QRect.height titlesRect + 8) 0 0 rect_summary.

Definition synopsisFont : QFont.t := QFont.setPointSize 8 valueFont.

Definition synopsisRect : QRect.t :=
  QRect.setHeight (Z.min (QRect.height rect_details) (fm_height synopsisFont * 5))
    rect_details.

End Layout.

(** The summary text of an item. *)
Definition summary {Score : Type} {tk : Toolkit Score} (item : Anime Score) : QString :=
  arg (arg summary_format (number (episode_count item))) (score_text (score item)).

(** The nine drawing calls of one card, each with the painter state it is
    issued under; [st] is the painter state on entry. *)
Definition card {Score : Type} {tk : Toolkit Score}
  (theme : Theme) (this : SearchListItemDelegate) (option : QStyleOptionViewItem)
  (index : QModelIndex Score) (item : Anime Score) (st : PainterState) : list Drawn :=
  let pal := palette option in
  let f := font st in
  let clip := Some (addRoundedRect (rect option) 4 4 []) in
  let base := {| pen := pen st; font := f; clipPath := clip |} in
  let with_font g := {| pen := pen st; font := g; clipPath := clip |} in
  [ {| ctx := base;
       call := FillRect (rect option)
                 (if selected option then highlight pal
                  else if isDark theme then mid pal else alternateBase pal) |};
    {| ctx := base;
       call := FillRect (posterRect option) (if isDark theme then dark pal else mid pal) |};
    {| ctx := base; call := DrawPixmap (posterRect option) (m_pixmap this) |};
    {| ctx := base; call := FillRect (titleBar option) (dark pal) |};
    {| ctx := with_font (titleFont f);
       call := DrawText (titleRect option) (Z.lor AlignVCenter TextSingleLine)
                 (fm_elidedText (titleFont f) (data_DisplayRole index) ElideRight
                    (QRect.width (titleRect option))) |};
    {| ctx := base;
       call := DrawText (summaryRect option f) (Z.lor AlignVCenter TextSingleLine)
                 (summary item) |};
    {| ctx := with_font (labelFont f);
       call := DrawText (titlesRect option f) 0 titles |};
    {| ctx := with_font (valueFont f);
       call := DrawText (valuesRect option f) 0 values |};
    {| ctx := {| pen := color (placeholderText pal);
                 font := synopsisFont f;
                 clipPath := clip |};
       call := DrawText (synopsisRect option f) TextWordWrap (synopsis item) |} ].

(** The texts handed to [drawText], in order. *)
Definition texts (calls : list Drawn) : list QString :=
  flat_map (fun d => match call d with DrawText _ _ t => [t] | _ => [] end) calls.

(** The calls a run of painting code adds to the painter's trace. *)
Definition added (p p' : QPainter) : list Drawn := skipn (List.length (trace p)) (trace p').

(** Text fits a width when it is empty or its advance is within the
    width. *)
Definition fits {Score : Type} {tk : Toolkit Score} (f : QFont.t) (s : QString) (w : Z) : Prop :=
  s = "" \/ fm_horizontalAdvance f s <= w.

(** The number of text lines of height [h] that show, wholly or in part,
    in a clip of height [H]. *)
Definition visible_lines (h H : Z) : Z :=
  if H <=? 0 then 0 else (H + h - 1) / h.

(** ** A reference toolkit

    A toolkit with per-character advances, to run the delegate on concrete
    cells.  Right elision keeps the longest prefix that leaves room for
    the ellipsis; the modes the delegate does not use leave the text as it
    is. *)
Module Reference.

Definition Score : Type := Z.

Fixpoint text_width (adv : ascii -> Z) (s : string) : Z :=
  match s with
  | EmptyString => 0
  | String c rest => adv c + text_width adv rest
  end.

Fixpoint fit_prefix (adv : ascii -> Z) (budget : Z) (s : string) : string :=
  match s with
  | EmptyString => ""
  | String c rest =>
      if adv c <=? budget then String c (fit_prefix adv (budget - adv c) rest) else ""
  end.

Definition ellipsis : string := "...".

Definition elide (adv : ascii -> Z) (s : string) (mode : TextElideMode) (w : Z) : string :=
  match mode with
  | ElideRight =>
      if text_width adv s <=? w then s
      else if text_width adv ellipsis <=? w
           then (fit_prefix adv (w - text_width adv ellipsis) s ++ ellipsis)%string
           else ""
  | _ => s
  end.

Definition toolkit_of (adv : QFont.t -> ascii -> Z) : Toolkit Score := {|
  fm_height := fun f => Z.max 1 (QFont.pointSize f) + 6;
  fm_boundingRect_width := fun f s => text_width (adv f) s;
  fm_horizontalAdvance := fun f s => text_width (adv f) s;
  fm_elidedText := fun f s mode w => elide (adv f) s mode w;
  QStyledItemDelegate_sizeHint := fun _ _ => QSize.make 0 0;
  score_text := number
|}.

(** Seven pixels a character, eight from demi-bold on. *)
Definition advance (f : QFont.t) (c : ascii) : Z :=
  if QFont.DemiBold <=? QFont.weight f then 8 else 7.

Definition toolkit : Toolkit Score := toolkit_of advance.

(** A face whose capital G is wide. *)
Definition advance_wide_G (f : QFont.t) (c : ascii) : Z :=
  if Ascii.eqb c "G" then 30 else advance f c.

Definition toolkit_wide_G : Toolkit Score := toolkit_of advance_wide_G.

Definition sample_palette : QPalette := {|
  highlight := {| color := 1 |};
  mid := {| color := 2 |};
  alternateBase := {| color := 3 |};
  dark := {| color := 4 |};
  placeholderText := {| color := 5 |}
|}.

Definition cell (w : Z) : QStyleOptionViewItem := {|
  rect := QRect.of_size 0 0 w 210;
  state := 0;
  palette := sample_palette
|}.

Definition frieren : Anime Score := {|
  episode_count := 28;
  score := 9;
  synopsis := "The adventure is over but life goes on for an elf mage."
|}.

Definition sample_model : SearchListModel Score := {|
  getAnime_at := fun r _ => if r =? 0 then Some frieren else None;
  data_display := fun r _ => if r =? 0 then "Sousou no Frieren" else ""
|}.

Definition index_at (r : Z) : QModelIndex Score :=
  {| row := r; column := 0; model := Some sample_model |}.

(** The default-constructed index: no model. *)
Definition null_index : QModelIndex Score :=
  {| row := -1; column := -1; model := None |}.

Definition no_files : FileSystem := fun _ => None.

Definition view (w : Z) : QListView := {| geometry := QRect.of_size 0 0 w 600 |}.

Definition delegate : SearchListItemDelegate :=
  new_SearchListItemDelegate no_files (Some (view 800)).

Definition light : Theme := {| isDark := false |}.

Definition painter0 : QPainter := {|
  current := {| pen := 0;
                font := QFont.make "Segoe UI" 9 QFont.Normal;
                clipPath := None |};
  saved := [];
  trace := []
|}.

End Reference.

(** ** A toolkit whose elision keeps short texts

    The toolkit's text engine hands a text of at most one character back
    as it is, whatever the width; this toolkit does so too and elides
    longer texts as the reference toolkit does. *)
Definition elide_keeping_short (adv : ascii -> Z) (s : string)
  (mode : TextElideMode) (w : Z) : string :=
  if Nat.leb (String.length s) 1 then s else Reference.elide adv s mode w.

Definition toolkit_keeping_short : Toolkit Reference.Score := {|
  fm_height := fun f => Z.max 1 (QFont.pointSize f) + 6;
  fm_boundingRect_width := fun f s => Reference.text_width (Reference.advance f) s;
  fm_horizontalAdvance := fun f s => Reference.text_width (Reference.advance f) s;
  fm_elidedText := fun f s mode w => elide_keeping_short (Reference.advance f) s mode w;
  QStyledItemDelegate_sizeHint := fun _ _ => QSize.make 0 0;
  score_text := number
|}.

(** A model whose every title is the single letter K. *)
Definition model_K : SearchListModel Reference.Score := {|
  getAnime_at := fun _ _ => Some Reference.frieren;
  data_display := fun _ _ => "K"
|}.

(** ** [initStyleOption] *)

(** [QStyleOptionViewItem::ViewItemFeature] *)
Definition WrapText : Z := 1.
Definition Alternate : Z := 2.
Definition HasCheckIndicator : Z := 4.
Definition HasDisplay : Z := 8.
Definition HasDecoration : Z := 16.

(** The style option with the feature flags that [initStyleOption]
    edits; [paint] and [sizeHint] read the other fields only. *)
Record ViewItemOption : Type := {
  view_option : QStyleOptionViewItem;
  features : Z
}.

Section InitStyleOption.

Variable Score : Type.

(** [QStyledItemDelegate::initStyleOption]: the toolkit fills the option
    from the index. *)
Variable QStyledItemDelegate_initStyleOption :
  ViewItemOption -> QModelIndex Score -> ViewItemOption.

(** The base class fills the option; the delegate then takes the display
    and the decoration flags out, one after the other. *)
Definition initStyleOption (option : ViewItemOption) (index : QModelIndex Score)
  : ViewItemOption :=
  let option := QStyledItemDelegate_initStyleOption option index in
  let option := {| view_option := view_option option;
                   features := Z.land (features option) (Z.lnot HasDisplay) |} in
  let option := {| view_option := view_option option;
                   features := Z.land (features option) (Z.lnot HasDecoration) |} in
  option.

End InitStyleOption.

Arguments initStyleOption {Score} _ _ _.

(** * Properties *)

(** ** The size hint *)

Lemma columns_cases (w : Z) :
  columns w = if 1440 <? w then 4 else if 1080 <? w then 3 else if 720 <? w then 2 else 1.
Proof.
  unfold columns, maxWidth.
  change (360 * 2) with 720. change (360 * 3) with 1080. change (360 * 4) with 1440.
  destruct (Z.ltb_spec 1440 w), (Z.ltb_spec 1080 w), (Z.ltb_spec 720 w);
    reflexivity || lia.
Qed.

Lemma columns_range (w : Z) : 1 <= columns w <= 4.
Proof.
  rewrite columns_cases.
  destruct (1440 <? w), (1080 <? w), (720 <? w); lia.
Qed.

(** The numerator is negative only in the one-column case, so truncating
    and flooring division agree on it. *)
Lemma itemWidth_div (w : Z) :
  itemWidth w = (w - 18 * (columns w + 2)) / columns w.
Proof.
  unfold itemWidth, spacing.
  pose proof (columns_cases w) as Hc. pose proof (columns_range w) as Hr.
  destruct (Z.le_gt_cases 0 (w - 18 * (columns w + 2))) as [Hpos | Hneg].
  - apply Z.quot_div_nonneg; lia.
  - destruct (Z.ltb_spec 1440 w); [lia |].
    destruct (Z.ltb_spec 1080 w); [lia |].
    destruct (Z.ltb_spec 720 w); [lia |].
    rewrite Hc. rewrite Z.quot_1_r, Z.div_1_r. reflexivity.
Qed.

(** On 32-bit [int]s no operation of [itemSize] leaves the range, as long
    as the view width is not within 108 of the smallest [int]. *)
Lemma itemWidth32_exact (w : Z) :
  int_range w -> - 2 ^ 31 + 108 <= w -> itemWidth32 w = itemWidth w.
Proof.
  unfold int_range, itemWidth32, itemWidth, spacing. intros Hw Hlo.
  pose proof (columns_range w) as Hr.
  assert (Hwrap : forall z, - 2 ^ 31 <= z < 2 ^ 31 -> wrap32 z = z).
  { intros z Hz. unfold wrap32. rewrite Z.mod_small; lia. }
  rewrite (Hwrap (columns w + 2)) by lia.
  rewrite (Hwrap (18 * (columns w + 2))) by lia.
  rewrite (Hwrap (w - 18 * (columns w + 2))) by lia.
  apply Hwrap.
  set (n := w - 18 * (columns w + 2)).
  assert (Hn : - 2 ^ 31 <= n < 2 ^ 31) by (unfold n; lia).
  destruct (Z.le_gt_cases 0 n) as [Hpos | Hneg].
  - pose proof (Z.quot_pos n (columns w) Hpos ltac:(lia)).
    pose proof (Z.quot_le_upper_bound n (columns w) n ltac:(lia)) as Hub.
    assert (n <= columns w * n) by nia.
    specialize (Hub H0). lia.
  - rewrite <- (Z.opp_involutive n) at 1 2. rewrite Z.quot_opp_l by lia.
    pose proof (Z.quot_pos (- n) (columns w) ltac:(lia) ltac:(lia)).
    pose proof (Z.quot_le_upper_bound (- n) (columns w) (- n) ltac:(lia)) as Hub.
    assert (- n <= columns w * - n) by nia.
    specialize (Hub H0). lia.
Qed.

(** C2. For a host view of width [W] the size hint uses [c] columns, with
    [c] between 1 and 4: 4 above 1440, else 3 above 1080, else 2 above 720,
    else 1.  It returns height 210 and width [(W - 18 * (c + 2)) / c], the
    division being that of [int]s, which here is also the flooring one. *)
Theorem itemSize_columns_width_height (view : QListView) (pm : QPixmap) :
  let W := QRect.width (geometry view) in
  let c := columns W in
  1 <= c <= 4
  /\ c = (if 1440 <? W then 4 else if 1080 <? W then 3 else if 720 <? W then 2 else 1)
  /\ itemSize {| parent := Some view; m_pixmap := pm |}
     = Ok (QSize.make (Z.quot (W - 18 * (c + 2)) c) 210)
  /\ Z.quot (W - 18 * (c + 2)) c = (W - 18 * (c + 2)) / c.
Proof.
  intros W c. split; [apply columns_range |].
  split; [apply columns_cases |].
  split; [reflexivity |].
  apply (itemWidth_div W).
Qed.

(** C9. The view is no wider than the spacing it reserves exactly when
    [W <= 54]; one column is then used and the width of the size hint is
    [W - 54]: zero or negative.  A view of width 0 gets -54. *)
Theorem itemSize_width_not_positive (view : QListView) (pm : QPixmap) :
  let W := QRect.width (geometry view) in
  (W <= 18 * (columns W + 2) <-> W <= 54)
  /\ (W <= 18 * (columns W + 2) ->
      columns W = 1
      /\ itemSize {| parent := Some view; m_pixmap := pm |} = Ok (QSize.make (W - 54) 210)
      /\ W - 54 <= 0).
Proof.
  intros W.
  pose proof (columns_cases W) as Hc.
  assert (Hiff : W <= 18 * (columns W + 2) <-> W <= 54).
  { rewrite Hc.
    destruct (Z.ltb_spec 1440 W); [lia |].
    destruct (Z.ltb_spec 1080 W); [lia |].
    destruct (Z.ltb_spec 720 W); lia. }
  split; [exact Hiff |].
  intros H. apply Hiff in H.
  assert (Hone : columns W = 1).
  { rewrite Hc.
    destruct (Z.ltb_spec 1440 W); [lia |].
    destruct (Z.ltb_spec 1080 W); [lia |].
    destruct (Z.ltb_spec 720 W); [lia | reflexivity]. }
  repeat split; try assumption; try lia.
  unfold itemSize, itemSize_of, itemWidth, spacing, height. cbn [parent].
  fold W. rewrite Hone. rewrite Z.quot_1_r. reflexivity.
Qed.

Lemma itemSize_width_not_positive_witness :
  itemSize {| parent := Some (Reference.view 0); m_pixmap := None |}
  = Ok (QSize.make (- 54) 210).
Proof.
  exact (proj1 (proj2
    (proj2 (itemSize_width_not_positive (Reference.view 0) None)
       ltac:(vm_compute; discriminate)))).
Defined.

(** C8. For an invalid index (a negative row or column, or no model)
    [sizeHint] returns the toolkit's default hint; for a valid index it
    returns what [itemSize] computes, the item size of the host view. *)
Theorem sizeHint_valid_or_default {Score : Type} {tk : Toolkit Score}
  (this : SearchListItemDelegate) (option : QStyleOptionViewItem)
  (index : QModelIndex Score) :
  (isValid index = false <-> row index < 0 \/ column index < 0 \/ model index = None)
  /\ (isValid index = false ->
      sizeHint this option index = Ok (QStyledItemDelegate_sizeHint option index))
  /\ (isValid index = true ->
      sizeHint this option index = itemSize this
      /\ forall view, parent this = Some view ->
           sizeHint this option index
           = Ok (QSize.make (itemWidth (QRect.width (geometry view))) 210)).
Proof.
  split; [| split].
  - unfold isValid.
    destruct (Z.leb_spec 0 (row index)), (Z.leb_spec 0 (column index)),
      (model index); cbn; split; intros Hx;
      try discriminate; try reflexivity; try lia; auto;
      destruct Hx as [Hx | [Hx | Hx]]; try lia; discriminate.
  - intros H. unfold sizeHint. rewrite H. reflexivity.
  - intros H. unfold sizeHint. rewrite H. split; [reflexivity |].
    intros view Hv. unfold itemSize. rewrite Hv. reflexivity.
Qed.

Lemma sizeHint_valid_or_default_witness :
  sizeHint (tk := Reference.toolkit) Reference.delegate (Reference.cell 364)
    Reference.null_index = Ok (QSize.make 0 0)
  /\ sizeHint (tk := Reference.toolkit) Reference.delegate (Reference.cell 364)
       (Reference.index_at 0) = Ok (QSize.make 364 210).
Proof.
  split.
  - exact (proj1 (proj2 (sizeHint_valid_or_default (tk := Reference.toolkit)
             Reference.delegate (Reference.cell 364) Reference.null_index))
             eq_refl).
  - exact (proj2 (proj2 (proj2 (sizeHint_valid_or_default (tk := Reference.toolkit)
             Reference.delegate (Reference.cell 364) (Reference.index_at 0)))
             eq_refl) (Reference.view 800) eq_refl).
Defined.

(** ** The summary text *)

Lemma append_empty_r (s : string) : (s ++ "")%string = s.
Proof. induction s as [| c s IH]; simpl; [reflexivity | now rewrite IH]. Qed.

Lemma has_percent_uint (d : Decimal.uint) :
  has_percent (NilEmpty.string_of_uint d) = false.
Proof. induction d; simpl; auto. Qed.

(** A decimal numeral holds digits and at most a sign. *)
Lemma has_percent_number (z : Z) : has_percent (number z) = false.
Proof.
  unfold number. destruct (Z.to_int z) as [d | d]; simpl.
  - destruct d; try reflexivity; simpl; apply has_percent_uint.
  - destruct d; try reflexivity; simpl; apply has_percent_uint.
Qed.

Lemma tokens_plain_app (a s : string) :
  has_percent a = false ->
  tokens Plain (a ++ s)%string = map Lit (list_ascii_of_string a) ++ tokens Plain s.
Proof.
  induction a as [| c a IH]; simpl; intros H.
  - reflexivity.
  - apply orb_false_iff in H. destruct H as [Hc Ha].
    unfold step_plain. rewrite Hc. simpl. rewrite (IH Ha). reflexivity.
Qed.

Lemma lowest_lits (l : list ascii) (ts : list Token) :
  lowest (map Lit l ++ ts) = lowest ts.
Proof. induction l; simpl; auto. Qed.

Lemma substitute_lits (k : nat) (b a : string) (ts : list Token) :
  substitute k b (map Lit (list_ascii_of_string a) ++ ts)
  = (a ++ substitute k b ts)%string.
Proof. induction a; simpl; congruence. Qed.

(** The first [arg] fills [%1] whatever the text is. *)
Lemma arg_summary_format (a : QString) :
  arg summary_format a = ("TV · " ++ a ++ " episodes · %2")%string.
Proof. reflexivity. Qed.

(** The second [arg] finds [%2] as the lowest marker, since the inserted
    numeral brought none. *)
Lemma arg_after_number (a b : QString) :
  has_percent a = false ->
  arg ("TV · " ++ a ++ " episodes · %2")%string b
  = ("TV · " ++ a ++ " episodes · " ++ b)%string.
Proof.
  intros H. unfold arg.
  change (tokens Plain ("TV · " ++ a ++ " episodes · %2")%string)
    with (map Lit (list_ascii_of_string "TV · ")
          ++ tokens Plain (a ++ " episodes · %2")%string).
  rewrite (tokens_plain_app _ _ H).
  rewrite !lowest_lits. simpl lowest. cbv beta iota.
  rewrite !substitute_lits. simpl. rewrite append_empty_r. reflexivity.
Qed.

Lemma summary_interpolated {Score : Type} {tk : Toolkit Score} (item : Anime Score) :
  summary item
  = ("TV · " ++ number (episode_count item) ++ " episodes · "
     ++ score_text (score item))%string.
Proof.
  unfold summary. rewrite arg_summary_format.
  apply arg_after_number, has_percent_number.
Qed.

(** ** The reference toolkit meets the toolkit's contracts *)

Lemma Reference_text_width_app (adv : ascii -> Z) (a b : string) :
  Reference.text_width adv (a ++ b)%string
  = Reference.text_width adv a + Reference.text_width adv b.
Proof. induction a as [| c a IH]; simpl; [reflexivity | rewrite IH; lia]. Qed.

Lemma Reference_fit_prefix_fits (adv : ascii -> Z) (s : string) :
  forall budget, 0 <= budget ->
    Reference.text_width adv (Reference.fit_prefix adv budget s) <= budget.
Proof.
  induction s as [| c s IH]; simpl; intros budget Hb.
  - exact Hb.
  - destruct (Z.leb_spec (adv c) budget) as [Hc | Hc]; simpl.
    + specialize (IH (budget - adv c) ltac:(lia)). lia.
    + exact Hb.
Qed.

Lemma Reference_elide_fits (adv : QFont.t -> ascii -> Z) (f : QFont.t) (s : QString) (w : Z) :
  fits (tk := Reference.toolkit_of adv) f
    (fm_elidedText (Toolkit := Reference.toolkit_of adv) f s ElideRight w) w.
Proof.
  unfold fits. cbn [fm_elidedText fm_horizontalAdvance Reference.toolkit_of].
  unfold Reference.elide.
  destruct (Z.leb_spec (Reference.text_width (adv f) s) w) as [Hs | Hs].
  - right. exact Hs.
  - destruct (Z.leb_spec (Reference.text_width (adv f) Reference.ellipsis) w) as [He | He].
    + right. rewrite Reference_text_width_app.
      pose proof (Reference_fit_prefix_fits (adv f) s
                    (w - Reference.text_width (adv f) Reference.ellipsis) ltac:(lia)).
      lia.
    + left. reflexivity.
Qed.

Lemma Reference_height_positive (adv : QFont.t -> ascii -> Z) (f : QFont.t) :
  0 < fm_height (Toolkit := Reference.toolkit_of adv) f.
Proof. cbn [fm_height Reference.toolkit_of]. lia. Qed.

(** ** Painting: what one call of [paint] does *)

Lemma skipn_length_app {A : Type} (l l' : list A) : skipn (List.length l) (l ++ l') = l'.
Proof. induction l as [| a l IH]; simpl; [reflexivity | exact IH]. Qed.

Section Painting.

Context {Score : Type} {tk : Toolkit Score}.

Variables (theme : Theme) (this : SearchListItemDelegate).
Variables (option : QStyleOptionViewItem) (index : QModelIndex Score).

(** [paint] stops at the model pointer or at the item pointer when one
    of them is null; otherwise it issues the nine calls of [card] and
    leaves the painter with the state and the stack it came with. *)
Lemma paint_cases (p : QPainter) :
  paint theme this option index p =
  match model index with
  | None => NullDeref
  | Some m =>
      match getAnime m index with
      | None => NullDeref
      | Some item =>
          Ok (tt, {| current := current p;
                     saved := saved p;
                     trace := trace p ++ card theme this option index item (current p) |})
      end
  end.
Proof.
  unfold paint, PainterStateSaver_enter, PainterStateSaver_leave.
  cbv [bind deref].
  destruct (model index) as [m |]; cbv beta iota; [| reflexivity].
  destruct (getAnime m index) as [item |];
    destruct (selected option) eqn:Hs; destruct (isDark theme) eqn:Hd;
    cbv [save restore setClipPath setFont setPen modify painter_font
         fillRect drawPixmap drawText draw ret current saved trace font pen clipPath];
    try reflexivity;
    unfold card; rewrite ?Hs, ?Hd; cbn [current saved trace font pen clipPath];
    repeat rewrite <- app_assoc; reflexivity.
Qed.

Lemma paint_added (m : SearchListModel Score) (item : Anime Score) (p : QPainter) :
  model index = Some m -> getAnime m index = Some item ->
  exists p', paint theme this option index p = Ok (tt, p')
             /\ current p' = current p
             /\ saved p' = saved p
             /\ added p p' = card theme this option index item (current p).
Proof.
  intros Hm Hi. rewrite paint_cases, Hm, Hi.
  eexists. split; [reflexivity |].
  split; [reflexivity |]. split; [reflexivity |].
  unfold added. cbn [trace]. apply skipn_length_app.
Qed.

Lemma paint_returns (p p' : QPainter) :
  paint theme this option index p = Ok (tt, p') ->
  exists m item, model index = Some m /\ getAnime m index = Some item.
Proof.
  rewrite paint_cases.
  destruct (model index) as [m |] eqn:Hm; [| discriminate].
  destruct (getAnime m index) as [item |] eqn:Hi; [| discriminate].
  intros _. exists m, item. split; [reflexivity | exact Hi].
Qed.

End Painting.

(** ** The claims about painting *)

(** Coordinates of the layout rectangles, by unfolding and arithmetic. *)
Ltac layout :=
  unfold synopsisRect, rect_details, valuesRect, titlesRect, rect_summary,
    summaryRect, rect_title, titleRect, titleBar, rect_poster, posterRect,
    synopsisFont, valueFont, labelFont, titleFont,
    QRect.setWidth, QRect.setHeight, QRect.adjust,
    QRect.width, QRect.height, QRect.left, QRect.top, QRect.right, QRect.bottom;
  cbn [QRect.x1 QRect.y1 QRect.x2 QRect.y2];
  try reflexivity; try lia.

(** C1, as the code has it.  The constructor always yields a delegate, and
    when the poster file is missing or unreadable its pixmap stays null.
    A paint call whose index has a model and whose model has the item
    record completes; with a null pixmap no call draws an image, and the
    poster band (the left 140 pixels of the cell) receives its background
    fill and the null pixmap only.  Null pointers are not guarded: a call
    on a null model or a null item record does not complete. *)
Theorem paint_completes_with_model_and_item {Score : Type} {tk : Toolkit Score}
  (fs : FileSystem) (parent : option QListView)
  (theme : Theme) (option : QStyleOptionViewItem) (index : QModelIndex Score)
  (m : SearchListModel Score) (item : Anime Score) (p : QPainter) :
  model index = Some m -> getAnime m index = Some item ->
  let this := new_SearchListItemDelegate fs parent in
  let band := QRect.make (QRect.left (rect option)) (QRect.top (rect option))
                (QRect.left (rect option) + 140 - 1) (QRect.bottom (rect option)) in
  (fs "./data/poster.jpg" = None -> isNull (m_pixmap this) = true)
  /\ exists p',
       paint theme this option index p = Ok (tt, p')
       /\ (fs "./data/poster.jpg" = None ->
           forallb (fun d => negb (draws_image (call d))) (added p p') = true
           /\ exists c brush,
                nth_error (added p p') 1 = Some {| ctx := c; call := FillRect band brush |}
                /\ nth_error (added p p') 2 = Some {| ctx := c; call := DrawPixmap band None |}).
Proof.
  intros Hm Hi this band.
  assert (Hnull : fs "./data/poster.jpg" = None -> m_pixmap this = None).
  { intros Hfs. unfold this, new_SearchListItemDelegate, QImageReader_read.
    cbn [m_pixmap]. rewrite Hfs. reflexivity. }
  split.
  - intros Hfs. rewrite (Hnull Hfs). reflexivity.
  - destruct (paint_added theme this option index m item p Hm Hi)
      as (p' & Hp & _ & _ & Ha).
    exists p'. split; [exact Hp |].
    intros Hfs. rewrite Ha. unfold card. rewrite (Hnull Hfs).
    split; [reflexivity |].
    eexists. eexists. split; reflexivity.
Qed.

Lemma paint_completes_with_model_and_item_witness :
  exists p', paint (tk := Reference.toolkit) Reference.light Reference.delegate
               (Reference.cell 364) (Reference.index_at 0) Reference.painter0
             = Ok (tt, p').
Proof.
  destruct (paint_completes_with_model_and_item (tk := Reference.toolkit)
              Reference.no_files (Some (Reference.view 800)) Reference.light
              (Reference.cell 364) (Reference.index_at 0)
              Reference.sample_model Reference.frieren Reference.painter0
              eq_refl eq_refl) as [_ [p' [Hp _]]].
  exists p'. exact Hp.
Defined.

(** C1, as stated, fails: painting an index without a model, or an index
    whose model has no record for it, ends in a null dereference instead
    of an empty region. *)
Lemma paint_stops_at_null_pointer :
  paint (tk := Reference.toolkit) Reference.light Reference.delegate
    (Reference.cell 364) Reference.null_index Reference.painter0 = NullDeref
  /\ paint (tk := Reference.toolkit) Reference.light Reference.delegate
       (Reference.cell 364) (Reference.index_at 1) Reference.painter0 = NullDeref.
Proof. split; reflexivity. Qed.

(** C7. The summary line, drawn 32 pixels below the top of the cell (under
    the title bar and its padding) in the painter's original font, is the
    format with the episode count and the score filled in. *)
Theorem summary_line_text {Score : Type} {tk : Toolkit Score}
  (theme : Theme) (this : SearchListItemDelegate)
  (option : QStyleOptionViewItem) (index : QModelIndex Score)
  (m : SearchListModel Score) (item : Anime Score) (p : QPainter) :
  model index = Some m -> getAnime m index = Some item ->
  exists p' c r,
    paint theme this option index p = Ok (tt, p')
    /\ nth_error (added p p') 5
       = Some {| ctx := c;
                 call := DrawText r (Z.lor AlignVCenter TextSingleLine)
                           ("TV · " ++ number (episode_count item) ++ " episodes · "
                            ++ score_text (score item))%string |}
    /\ nth_error (texts (added p p')) 1
       = Some ("TV · " ++ number (episode_count item) ++ " episodes · "
               ++ score_text (score item))%string
    /\ QRect.top r = QRect.top (rect option) + (24 + 8)
    /\ font c = font (current p).
Proof.
  intros Hm Hi.
  destruct (paint_added theme this option index m item p Hm Hi)
    as (p' & Hp & _ & _ & Ha).
  exists p'. eexists. eexists. split; [exact Hp |].
  rewrite Ha. unfold card, texts. cbn [nth_error flat_map call app].
  rewrite summary_interpolated.
  split; [reflexivity |]. split; [reflexivity |]. split; [layout | reflexivity].
Qed.

Lemma summary_line_text_witness :
  exists p',
    paint (tk := Reference.toolkit) Reference.light Reference.delegate
      (Reference.cell 364) (Reference.index_at 0) Reference.painter0 = Ok (tt, p')
    /\ nth_error (texts (added Reference.painter0 p')) 1 = Some "TV · 28 episodes · 9".
Proof.
  destruct (summary_line_text (tk := Reference.toolkit) Reference.light Reference.delegate
              (Reference.cell 364) (Reference.index_at 0)
              Reference.sample_model Reference.frieren Reference.painter0
              eq_refl eq_refl) as (p' & c & r & Hp & _ & Ht & _).
  exists p'. split; [exact Hp | exact Ht].
Defined.

(** C3. The value column of the details block is drawn from a constant:
    whatever the index, the item record, the style option or the painter,
    the text handed to the painter is the same three fixed lines, so two
    paints over any two item records draw identical value text. *)
Theorem details_values_are_constant {Score : Type} {tk : Toolkit Score}
  (theme1 theme2 : Theme) (this1 this2 : SearchListItemDelegate)
  (option1 option2 : QStyleOptionViewItem) (index1 index2 : QModelIndex Score)
  (m1 m2 : SearchListModel Score) (item1 item2 : Anime Score) (p1 p2 : QPainter) :
  model index1 = Some m1 -> getAnime m1 index1 = Some item1 ->
  model index2 = Some m2 -> getAnime m2 index2 = Some item2 ->
  let lines := String.concat (String "010" "")
                 ["Jan 7, 2024 to Mar 31, 2024 (Airing)";
                  "Action, Adventure, Fantasy";
                  "A-1 Pictures"] in
  exists p1' p2' c1 r1 c2 r2,
    paint theme1 this1 option1 index1 p1 = Ok (tt, p1')
    /\ paint theme2 this2 option2 index2 p2 = Ok (tt, p2')
    /\ nth_error (added p1 p1') 7 = Some {| ctx := c1; call := DrawText r1 0 lines |}
    /\ nth_error (added p2 p2') 7 = Some {| ctx := c2; call := DrawText r2 0 lines |}
    /\ nth_error (texts (added p1 p1')) 3 = Some lines
    /\ nth_error (texts (added p1 p1')) 3 = nth_error (texts (added p2 p2')) 3.
Proof.
  intros Hm1 Hi1 Hm2 Hi2 lines.
  destruct (paint_added theme1 this1 option1 index1 m1 item1 p1 Hm1 Hi1)
    as (p1' & Hp1 & _ & _ & Ha1).
  destruct (paint_added theme2 this2 option2 index2 m2 item2 p2 Hm2 Hi2)
    as (p2' & Hp2 & _ & _ & Ha2).
  exists p1', p2'. do 4 eexists.
  split; [exact Hp1 |]. split; [exact Hp2 |].
  rewrite Ha1, Ha2. unfold card, texts. cbn [nth_error flat_map call app].
  repeat split; reflexivity.
Qed.

Lemma details_values_are_constant_witness :
  exists p1' p2',
    paint (tk := Reference.toolkit) Reference.light Reference.delegate
      (Reference.cell 364) (Reference.index_at 0) Reference.painter0 = Ok (tt, p1')
    /\ paint (tk := Reference.toolkit) {| isDark := true |} Reference.delegate
         (Reference.cell 200)
         {| row := 3; column := 0;
            model := Some {| getAnime_at := fun _ _ =>
                               Some {| episode_count := 1; score := 5; synopsis := "" |};
                             data_display := fun _ _ => "X" |} |}
         Reference.painter0 = Ok (tt, p2')
    /\ nth_error (texts (added Reference.painter0 p1')) 3
       = nth_error (texts (added Reference.painter0 p2')) 3.
Proof.
  destruct (details_values_are_constant (tk := Reference.toolkit)
              Reference.light {| isDark := true |} Reference.delegate Reference.delegate
              (Reference.cell 364) (Reference.cell 200)
              (Reference.index_at 0)
              {| row := 3; column := 0;
                 model := Some {| getAnime_at := fun _ _ =>
                                    Some {| episode_count := 1; score := 5; synopsis := "" |};
                                  data_display := fun _ _ => "X" |} |}
              Reference.sample_model _ Reference.frieren _
              Reference.painter0 Reference.painter0
              eq_refl eq_refl eq_refl eq_refl)
    as (p1' & p2' & c1 & r1 & c2 & r2 & Hp1 & Hp2 & _ & _ & _ & Heq).
  exists p1', p2'. split; [exact Hp1 |]. split; [exact Hp2 | exact Heq].
Defined.

(** C4, as the code has it.  The label column holds the three labels in
    demi-bold and is as wide as the label "Studios:" in that font; the
    value column starts at the label column's left edge plus that width
    plus 8, on the same top line; both are three line heights tall, the
    line height being that of the label font.  The label column is as wide
    as the widest label whenever "Studios:" is the widest. *)
Theorem details_columns {Score : Type} {tk : Toolkit Score}
  (theme : Theme) (this : SearchListItemDelegate)
  (option : QStyleOptionViewItem) (index : QModelIndex Score)
  (m : SearchListModel Score) (item : Anime Score) (p : QPainter) :
  model index = Some m -> getAnime m index = Some item ->
  exists p' cl rl cv rv,
    paint theme this option index p = Ok (tt, p')
    /\ nth_error (added p p') 6
       = Some {| ctx := cl;
                 call := DrawText rl 0
                           (String.concat (String "010" "") ["Aired:"; "Genres:"; "Studios:"]) |}
    /\ nth_error (added p p') 7 = Some {| ctx := cv; call := DrawText rv 0 values |}
    /\ QFont.weight (font cl) = QFont.DemiBold
    /\ QRect.width rl = fm_boundingRect_width (font cl) "Studios:"
    /\ QRect.left rv = QRect.left rl + QRect.width rl + 8
    /\ QRect.top rv = QRect.top rl
    /\ QRect.height rl = 3 * fm_height (font cl)
    /\ QRect.height rv = 3 * fm_height (font cl)
    /\ (fm_boundingRect_width (font cl) "Aired:" <= fm_boundingRect_width (font cl) "Studios:" ->
        fm_boundingRect_width (font cl) "Genres:" <= fm_boundingRect_width (font cl) "Studios:" ->
        QRect.width rl
        = Z.max (fm_boundingRect_width (font cl) "Aired:")
            (Z.max (fm_boundingRect_width (font cl) "Genres:")
               (fm_boundingRect_width (font cl) "Studios:"))).
Proof.
  intros Hm Hi.
  destruct (paint_added theme this option index m item p Hm Hi)
    as (p' & Hp & _ & _ & Ha).
  exists p'. do 4 eexists. split; [exact Hp |].
  rewrite Ha. unfold card. cbn [nth_error].
  split; [reflexivity |]. split; [reflexivity |].
  cbn [font ctx].
  split; [reflexivity |].
  assert (Hw : QRect.width (titlesRect option (font (current p)))
               = fm_boundingRect_width (labelFont (font (current p))) "Studios:").
  { layout. }
  split; [exact Hw |].
  split; [rewrite Hw; layout |].
  split; [layout |]. split; [layout |]. split; [layout |].
  intros H1 H2. rewrite Hw. lia.
Qed.

Lemma details_columns_witness :
  exists p' cl rl,
    paint (tk := Reference.toolkit) Reference.light Reference.delegate
      (Reference.cell 364) (Reference.index_at 0) Reference.painter0 = Ok (tt, p')
    /\ nth_error (added Reference.painter0 p') 6
       = Some {| ctx := cl; call := DrawText rl 0 titles |}
    /\ QRect.width rl
       = Z.max (fm_boundingRect_width (Toolkit := Reference.toolkit) (font cl) "Aired:")
           (Z.max (fm_boundingRect_width (Toolkit := Reference.toolkit) (font cl) "Genres:")
              (fm_boundingRect_width (Toolkit := Reference.toolkit) (font cl) "Studios:")).
Proof.
  destruct (details_columns (tk := Reference.toolkit) Reference.light Reference.delegate
              (Reference.cell 364) (Reference.index_at 0)
              Reference.sample_model Reference.frieren Reference.painter0
              eq_refl eq_refl)
    as (p' & cl & rl & cv & rv & Hp & H6 & _ & _ & _ & _ & _ & _ & _ & Hmax).
  exists p', cl, rl. split; [exact Hp |]. split; [exact H6 |].
  pose proof Hp as Hq. vm_compute in Hq. injection Hq as Hq. subst p'.
  vm_compute in H6. injection H6 as Hc Hr. subst cl rl.
  apply Hmax; vm_compute; discriminate.
Defined.

(** C4, as stated, fails: in a face whose capital G is wide, the label
    column is narrower than the label "Genres:", hence not as wide as the
    widest of the three labels. *)
Lemma label_column_not_widest_label :
  exists p' cl rl,
    paint (tk := Reference.toolkit_wide_G) Reference.light Reference.delegate
      (Reference.cell 364) (Reference.index_at 0) Reference.painter0 = Ok (tt, p')
    /\ nth_error (added Reference.painter0 p') 6
       = Some {| ctx := cl; call := DrawText rl 0 titles |}
    /\ QRect.width rl = 64
    /\ Z.max (fm_boundingRect_width (Toolkit := Reference.toolkit_wide_G) (font cl) "Aired:")
         (Z.max (fm_boundingRect_width (Toolkit := Reference.toolkit_wide_G) (font cl) "Genres:")
            (fm_boundingRect_width (Toolkit := Reference.toolkit_wide_G) (font cl) "Studios:"))
       = 78.
Proof.
  do 3 eexists. split; [vm_compute; reflexivity |].
  split; [vm_compute; reflexivity |].
  split; vm_compute; reflexivity.
Qed.

(** C5, as the code has it.  The title bar is the top 24 pixels of the
    cell to the right of the 140-pixel poster band and is filled with the
    palette's dark brush.  The title is drawn in it with 8 pixels of
    padding on either side, in the painter's font at demi-bold weight
    (heavier than normal), and the drawn string is the toolkit's right
    elision of the title, measured in that same font, to the width of the
    rectangle it is drawn into: the cell width less 156.  The delegate
    makes no check of its own that the elided string fits. *)
Theorem title_bar_elided {Score : Type} {tk : Toolkit Score}
  (theme : Theme) (this : SearchListItemDelegate)
  (option : QStyleOptionViewItem) (index : QModelIndex Score)
  (m : SearchListModel Score) (item : Anime Score) (p : QPainter) :
  model index = Some m -> getAnime m index = Some item ->
  exists p' cb bar ct r text,
    paint theme this option index p = Ok (tt, p')
    /\ nth_error (added p p') 3
       = Some {| ctx := cb; call := FillRect bar (dark (palette option)) |}
    /\ QRect.height bar = 24
    /\ QRect.top bar = QRect.top (rect option)
    /\ QRect.left bar = QRect.left (rect option) + 140
    /\ QRect.right bar = QRect.right (rect option)
    /\ nth_error (added p p') 4
       = Some {| ctx := ct;
                 call := DrawText r (Z.lor AlignVCenter TextSingleLine) text |}
    /\ r = QRect.adjust 8 0 (-8) 0 bar
    /\ QRect.width r = QRect.width (rect option) - 156
    /\ font ct = QFont.setWeight QFont.DemiBold (font (current p))
    /\ QFont.Normal < QFont.weight (font ct)
    /\ text = fm_elidedText (font ct) (data_DisplayRole index) ElideRight (QRect.width r)
    /\ nth_error (texts (added p p')) 0 = Some text.
Proof.
  intros Hm Hi.
  destruct (paint_added theme this option index m item p Hm Hi)
    as (p' & Hp & _ & _ & Ha).
  exists p'. do 5 eexists. split; [exact Hp |].
  rewrite Ha. unfold card, texts. cbn [nth_error flat_map call app].
  split; [reflexivity |].
  split; [layout |]. split; [layout |]. split; [layout |]. split; [layout |].
  split; [reflexivity |].
  split; [reflexivity |].
  split; [layout |].
  cbn [font ctx].
  split; [reflexivity |].
  split; [reflexivity |].
  split; reflexivity.
Qed.

Lemma title_bar_elided_witness :
  exists p',
    paint (tk := Reference.toolkit) Reference.light Reference.delegate
      (Reference.cell 200) (Reference.index_at 0) Reference.painter0 = Ok (tt, p')
    /\ nth_error (texts (added Reference.painter0 p')) 0 = Some "So...".
Proof.
  destruct (title_bar_elided (tk := Reference.toolkit)
              Reference.light Reference.delegate
              (Reference.cell 200) (Reference.index_at 0)
              Reference.sample_model Reference.frieren Reference.painter0
              eq_refl eq_refl)
    as (p' & cb & bar & ct & r & text & Hp & _).
  exists p'. split; [exact Hp |].
  pose proof Hp as Hq. vm_compute in Hq. injection Hq as Hq. subst p'.
  reflexivity.
Defined.

(** C5, as stated, fails: with a toolkit whose elision hands a
    one-character text back as it is, the title K of a 160-pixel cell is
    drawn whole, 8 pixels wide, into a title rectangle 4 pixels wide; the
    drawn string is not empty and does not fit the available width. *)
Lemma title_wider_than_bar :
  exists p' c r,
    paint (tk := toolkit_keeping_short) Reference.light Reference.delegate
      (Reference.cell 160) {| row := 0; column := 0; model := Some model_K |}
      Reference.painter0 = Ok (tt, p')
    /\ nth_error (added Reference.painter0 p') 4
       = Some {| ctx := c;
                 call := DrawText r (Z.lor AlignVCenter TextSingleLine) "K" |}
    /\ QRect.width r = 4
    /\ fm_horizontalAdvance (Toolkit := toolkit_keeping_short) (font c) "K" = 8
    /\ ~ fits (tk := toolkit_keeping_short) (font c) "K" (QRect.width r).
Proof.
  do 3 eexists. split; [vm_compute; reflexivity |].
  split; [vm_compute; reflexivity |].
  split; [vm_compute; reflexivity |].
  split; [vm_compute; reflexivity |].
  unfold fits. intros [H | H]; [discriminate H |].
  vm_compute in H. apply H. reflexivity.
Qed.

(** C6.  The synopsis is drawn last, word-wrapped, with the palette's
    placeholder-text colour as pen and the details font at 8 points.  Its
    rectangle starts where the details block ended and is as tall as what
    is left of the cell above the 8-pixel bottom padding, or five line
    heights of that font if that is less.  With a positive line height, at
    most five lines show in it. *)
Theorem synopsis_clipped_to_five_lines {Score : Type} {tk : Toolkit Score}
  (height_positive : forall f, 0 < fm_height f)
  (theme : Theme) (this : SearchListItemDelegate)
  (option : QStyleOptionViewItem) (index : QModelIndex Score)
  (m : SearchListModel Score) (item : Anime Score) (p : QPainter) :
  model index = Some m -> getAnime m index = Some item ->
  exists p' c r,
    paint theme this option index p = Ok (tt, p')
    /\ nth_error (added p p') 8
       = Some {| ctx := c; call := DrawText r TextWordWrap (synopsis item) |}
    /\ List.length (added p p') = 9%nat
    /\ pen c = color (placeholderText (palette option))
    /\ QFont.pointSize (font c) = 8
    /\ QFont.weight (font c) = QFont.Normal
    /\ QRect.height r
       = Z.min (QRect.bottom (rect option) - 8 - QRect.top r + 1) (fm_height (font c) * 5)
    /\ QRect.height r <= 5 * fm_height (font c)
    /\ visible_lines (fm_height (font c)) (QRect.height r) <= 5.
Proof.
  intros Hm Hi.
  destruct (paint_added theme this option index m item p Hm Hi)
    as (p' & Hp & _ & _ & Ha).
  exists p'. do 2 eexists. split; [exact Hp |].
  rewrite Ha. unfold card. cbn [nth_error List.length].
  split; [reflexivity |]. split; [reflexivity |].
  cbn [font pen ctx].
  split; [reflexivity |]. split; [reflexivity |]. split; [reflexivity |].
  set (h := fm_height (synopsisFont (font (current p)))).
  assert (Hh : QRect.height (synopsisRect option (font (current p)))
               = Z.min (QRect.height (rect_details option (font (current p)))) (h * 5)).
  { unfold synopsisRect, QRect.setHeight, QRect.height at 1.
    cbn [QRect.y1 QRect.y2]. fold h. lia. }
  split.
  - rewrite Hh. f_equal. layout.
  - assert (Hle : QRect.height (synopsisRect option (font (current p))) <= 5 * h) by lia.
    split; [exact Hle |].
    unfold visible_lines.
    destruct (Z.leb_spec (QRect.height (synopsisRect option (font (current p)))) 0);
      [lia |].
    pose proof (height_positive (synopsisFont (font (current p)))) as Hpos. fold h in Hpos.
    apply Z.lt_succ_r. apply Z.div_lt_upper_bound; lia.
Qed.

Lemma synopsis_clipped_to_five_lines_witness :
  exists p' c r,
    paint (tk := Reference.toolkit) Reference.light Reference.delegate
      (Reference.cell 364) (Reference.index_at 0) Reference.painter0 = Ok (tt, p')
    /\ nth_error (added Reference.painter0 p') 8
       = Some {| ctx := c;
                 call := DrawText r TextWordWrap (synopsis Reference.frieren) |}
    /\ QRect.height r <= 5 * fm_height (Toolkit := Reference.toolkit) (font c).
Proof.
  destruct (synopsis_clipped_to_five_lines (tk := Reference.toolkit)
              (Reference_height_positive Reference.advance)
              Reference.light Reference.delegate
              (Reference.cell 364) (Reference.index_at 0)
              Reference.sample_model Reference.frieren Reference.painter0
              eq_refl eq_refl)
    as (p' & c & r & Hp & H8 & _ & _ & _ & _ & _ & Hle & _).
  exists p', c, r. split; [exact Hp |]. split; [exact H8 | exact Hle].
Defined.

(** C10.  A paint call that returns leaves the painter with the state
    (pen, font, clip path) and the stack of saved states it was entered
    with, so painting another cell afterwards issues exactly the calls it
    would have issued on the painter as it was before.  The call returns
    whenever the index has a model and the model has the item record. *)
Theorem paint_restores_painter {Score : Type} {tk : Toolkit Score}
  (theme : Theme) (this : SearchListItemDelegate)
  (option : QStyleOptionViewItem) (index : QModelIndex Score) (p : QPainter) :
  (forall p',
      paint theme this option index p = Ok (tt, p') ->
      current p' = current p
      /\ saved p' = saved p
      /\ (exists calls, trace p' = trace p ++ calls)
      /\ forall theme2 this2 option2 index2 q',
           paint theme2 this2 option2 index2 p' = Ok (tt, q') ->
           exists q, paint theme2 this2 option2 index2 p = Ok (tt, q)
                     /\ added p' q' = added p q)
  /\ (forall m item,
        model index = Some m -> getAnime m index = Some item ->
        exists p', paint theme this option index p = Ok (tt, p')).
Proof.
  split.
  - intros p' Hp.
    destruct (paint_returns _ _ _ _ _ _ Hp) as (m & item & Hm & Hi).
    destruct (paint_added theme this option index m item p Hm Hi)
      as (p1 & Hp1 & Hc & Hs & Ha).
    rewrite Hp in Hp1. injection Hp1 as <-.
    split; [exact Hc |]. split; [exact Hs |].
    split.
    { rewrite paint_cases, Hm, Hi in Hp. injection Hp as <-.
      eexists. reflexivity. }
    intros theme2 this2 option2 index2 q' Hq'.
    destruct (paint_returns _ _ _ _ _ _ Hq') as (m2 & item2 & Hm2 & Hi2).
    destruct (paint_added theme2 this2 option2 index2 m2 item2 p Hm2 Hi2)
      as (q & Hq & _ & _ & Haq).
    destruct (paint_added theme2 this2 option2 index2 m2 item2 p' Hm2 Hi2)
      as (q1 & Hq1 & _ & _ & Haq1).
    rewrite Hq' in Hq1. injection Hq1 as <-.
    exists q. split; [exact Hq |].
    rewrite Haq, Haq1, Hc. reflexivity.
  - intros m item Hm Hi.
    destruct (paint_added theme this option index m item p Hm Hi) as (p' & Hp & _).
    exists p'. exact Hp.
Qed.

Lemma paint_restores_painter_witness :
  exists p',
    paint (tk := Reference.toolkit) Reference.light Reference.delegate
      (Reference.cell 364) (Reference.index_at 0) Reference.painter0 = Ok (tt, p')
    /\ current p' = current Reference.painter0
    /\ saved p' = saved Reference.painter0.
Proof.
  destruct (paint_restores_painter (tk := Reference.toolkit) Reference.light
              Reference.delegate (Reference.cell 364) (Reference.index_at 0)
              Reference.painter0) as [Hret Hex].
  destruct (Hex Reference.sample_model Reference.frieren eq_refl eq_refl) as [p' Hp].
  exists p'. split; [exact Hp |].
  destruct (Hret p' Hp) as (Hc & Hs & _).
  split; [exact Hc | exact Hs].
Defined.

(** * Further properties of the delegate *)

(** ** [initStyleOption] *)

Lemma testbit_pow2 (k n : Z) : 0 <= k -> Z.testbit (2 ^ k) n = (k =? n).
Proof. intros Hk. apply Z.pow2_bits_eqb. exact Hk. Qed.

Lemma initStyleOption_bits {Score : Type}
  (base : ViewItemOption -> QModelIndex Score -> ViewItemOption)
  (option : ViewItemOption) (index : QModelIndex Score) (n : Z) :
  0 <= n ->
  Z.testbit (features (initStyleOption base option index)) n
  = if (n =? 3) || (n =? 4) then false
    else Z.testbit (features (base option index)) n.
Proof.
  intros Hn. unfold initStyleOption, HasDisplay, HasDecoration. cbn [features].
  change 8 with (2 ^ 3). change 16 with (2 ^ 4).
  rewrite !Z.land_spec, !Z.lnot_spec, !testbit_pow2 by lia.
  rewrite (Z.eqb_sym 3 n), (Z.eqb_sym 4 n).
  destruct (n =? 3), (n =? 4); cbn; rewrite ?andb_true_r, ?andb_false_r; reflexivity.
Qed.

(** X1. Whatever the base class put into the option, the option that
    [initStyleOption] returns has neither the display nor the decoration
    flag; every other feature bit, and every other field, is as the base
    class left it. *)
Theorem initStyleOption_clears_display_and_decoration {Score : Type}
  (base : ViewItemOption -> QModelIndex Score -> ViewItemOption)
  (option : ViewItemOption) (index : QModelIndex Score) :
  let result := initStyleOption base option index in
  view_option result = view_option (base option index)
  /\ Z.land (features result) HasDisplay = 0
  /\ Z.land (features result) HasDecoration = 0
  /\ (forall n, 0 <= n -> n <> 3 -> n <> 4 ->
        Z.testbit (features result) n = Z.testbit (features (base option index)) n)
  /\ Z.land (features result) WrapText = Z.land (features (base option index)) WrapText
  /\ Z.land (features result) Alternate = Z.land (features (base option index)) Alternate
  /\ Z.land (features result) HasCheckIndicator
     = Z.land (features (base option index)) HasCheckIndicator.
Proof.
  intros result.
  assert (Hbits := initStyleOption_bits base option index). fold result in Hbits.
  assert (Hother : forall n, 0 <= n -> n <> 3 -> n <> 4 ->
            Z.testbit (features result) n = Z.testbit (features (base option index)) n).
  { intros n Hn H3 H4. rewrite (Hbits n Hn).
    destruct (Z.eqb_spec n 3); [contradiction |].
    destruct (Z.eqb_spec n 4); [contradiction | reflexivity]. }
  assert (Hflag : forall k, 0 <= k -> k <> 3 -> k <> 4 ->
            Z.land (features result) (2 ^ k)
            = Z.land (features (base option index)) (2 ^ k)).
  { intros k Hk H3 H4. apply Z.bits_inj'. intros n Hn.
    rewrite !Z.land_spec, testbit_pow2 by lia.
    destruct (Z.eqb_spec k n) as [<- | _];
      [rewrite (Hother k Hk H3 H4); reflexivity | rewrite !andb_false_r; reflexivity]. }
  split; [reflexivity |].
  split.
  { apply Z.bits_inj'. intros n Hn. unfold HasDisplay. change 8 with (2 ^ 3).
    rewrite Z.land_spec, Z.bits_0, testbit_pow2, (Hbits n Hn) by lia.
    destruct (Z.eqb_spec 3 n) as [<- | _]; [reflexivity | apply andb_false_r]. }
  split.
  { apply Z.bits_inj'. intros n Hn. unfold HasDecoration. change 16 with (2 ^ 4).
    rewrite Z.land_spec, Z.bits_0, testbit_pow2, (Hbits n Hn) by lia.
    destruct (Z.eqb_spec 4 n) as [<- | _]; [reflexivity | apply andb_false_r]. }
  split; [exact Hother |].
  split; [apply (Hflag 0); lia |].
  split; [apply (Hflag 1); lia | apply (Hflag 2); lia].
Qed.

Lemma initStyleOption_clears_display_and_decoration_witness :
  features (initStyleOption (Score := Reference.Score)
              (fun o _ => {| view_option := view_option o; features := 31 |})
              {| view_option := Reference.cell 364; features := 0 |}
              (Reference.index_at 0)) = 7
  /\ Z.testbit (features (initStyleOption (Score := Reference.Score)
              (fun o _ => {| view_option := view_option o; features := 31 |})
              {| view_option := Reference.cell 364; features := 0 |}
              (Reference.index_at 0))) 2 = true.
Proof.
  split; [reflexivity |].
  rewrite (proj1 (proj2 (proj2 (proj2
    (initStyleOption_clears_display_and_decoration (Score := Reference.Score)
       (fun o _ => {| view_option := view_option o; features := 31 |})
       {| view_option := Reference.cell 364; features := 0 |}
       (Reference.index_at 0))))) 2 ltac:(lia) ltac:(lia) ltac:(lia)).
  reflexivity.
Defined.

(** ** The size hint, further *)

(** X2. On 32-bit [int]s no step of [itemSize] overflows, for every view
    width at least 108 above the smallest [int]: the wrapped computation
    and the exact one agree. *)
Theorem itemSize_no_overflow (w : Z) :
  int_range w -> - 2 ^ 31 + 108 <= w ->
  itemWidth32 w = itemWidth w /\ int_range (itemWidth w).
Proof.
  intros Hw Hlo. pose proof (itemWidth32_exact w Hw Hlo) as He.
  split; [exact He |].
  rewrite <- He. unfold itemWidth32, wrap32, int_range.
  pose proof (Z.mod_pos_bound
    (Z.quot (wrap32 (w - wrap32 (spacing * wrap32 (columns w + 2)))) (columns w) + 2 ^ 31)
    (2 ^ 32) ltac:(lia)).
  unfold wrap32 in H. lia.
Qed.

Lemma itemSize_no_overflow_witness :
  itemWidth32 800 = 364 /\ itemWidth32 (2 ^ 31 - 1) = itemWidth (2 ^ 31 - 1).
Proof.
  split.
  - exact (proj1 (itemSize_no_overflow 800 ltac:(unfold int_range; lia) ltac:(lia))).
  - exact (proj1 (itemSize_no_overflow (2 ^ 31 - 1)
                    ltac:(unfold int_range; lia) ltac:(lia))).
Defined.

(** X3. For a view at least 54 wide, the columns of the size hint fit the
    view: [c] items and the reserved spacing [18 * (c + 2)] take no more
    than the view width, and less than [c] pixels are left over. *)
Theorem itemSize_columns_fit_view (view : QListView) (pm : QPixmap) :
  let W := QRect.width (geometry view) in
  let c := columns W in
  54 <= W ->
  exists w,
    itemSize {| parent := Some view; m_pixmap := pm |} = Ok (QSize.make w 210)
    /\ 0 <= w
    /\ c * w + 18 * (c + 2) <= W < c * w + 18 * (c + 2) + c.
Proof.
  intros W c HW.
  exists (itemWidth W). split; [reflexivity |].
  rewrite itemWidth_div. fold c.
  pose proof (columns_range W) as Hr. fold c in Hr.
  pose proof (columns_cases W) as Hc. fold c in Hc.
  assert (Hnum : 0 <= W - 18 * (c + 2)).
  { destruct (Z.ltb_spec 1440 W); [lia |].
    destruct (Z.ltb_spec 1080 W); [lia |].
    destruct (Z.ltb_spec 720 W); lia. }
  pose proof (Z.div_mod (W - 18 * (c + 2)) c ltac:(lia)) as Hdm.
  pose proof (Z.mod_pos_bound (W - 18 * (c + 2)) c ltac:(lia)) as Hm.
  split; [apply Z.div_pos; lia |]. lia.
Qed.

Lemma itemSize_columns_fit_view_witness :
  exists w,
    itemSize {| parent := Some (Reference.view 1100); m_pixmap := None |}
    = Ok (QSize.make w 210)
    /\ 3 * w + 18 * (3 + 2) <= 1100 < 3 * w + 18 * (3 + 2) + 3.
Proof.
  destruct (itemSize_columns_fit_view (Reference.view 1100) None
              ltac:(vm_compute; discriminate)) as (w & Hs & _ & Hfit).
  exists w. split; [exact Hs | exact Hfit].
Defined.

Lemma columns_monotone (w1 w2 : Z) : w1 <= w2 -> columns w1 <= columns w2.
Proof.
  intros H. rewrite !columns_cases.
  destruct (Z.ltb_spec 1440 w1), (Z.ltb_spec 1080 w1), (Z.ltb_spec 720 w1),
    (Z.ltb_spec 1440 w2), (Z.ltb_spec 1080 w2), (Z.ltb_spec 720 w2); lia.
Qed.

(** X4. Widening the view never lowers the column count, and as long as
    the column count stays the same it never narrows the items; once the
    view is wider than 720, so that there are at least two columns, an
    item is at least 324 wide. *)
Theorem itemWidth_within_column_band (w1 w2 : Z) :
  w1 <= w2 ->
  columns w1 <= columns w2
  /\ (columns w1 = columns w2 -> itemWidth w1 <= itemWidth w2)
  /\ (720 < w1 -> 2 <= columns w1 /\ 324 <= itemWidth w1).
Proof.
  intros H. split; [apply columns_monotone; exact H |].
  split.
  - intros Hc. rewrite !itemWidth_div. rewrite <- Hc.
    pose proof (columns_range w1).
    apply Z.div_le_mono; lia.
  - intros Hw. pose proof (columns_cases w1) as Hc.
    rewrite itemWidth_div.
    destruct (Z.ltb_spec 1440 w1).
    { rewrite Hc. split; [lia |]. apply Z.div_le_lower_bound; lia. }
    destruct (Z.ltb_spec 1080 w1).
    { rewrite Hc. split; [lia |]. apply Z.div_le_lower_bound; lia. }
    destruct (Z.ltb_spec 720 w1); [| lia].
    rewrite Hc. split; [lia |]. apply Z.div_le_lower_bound; lia.
Qed.

Lemma itemWidth_within_column_band_witness :
  itemWidth 800 <= itemWidth 1000 /\ 324 <= itemWidth 800.
Proof.
  destruct (itemWidth_within_column_band 800 1000 ltac:(lia)) as (_ & Hm & Hlo).
  split; [exact (Hm eq_refl) | exact (proj2 (Hlo ltac:(lia)))].
Defined.

(** ** Painting, further *)

Lemma selected_testbit (option : QStyleOptionViewItem) :
  selected option = Z.testbit (state option) 15.
Proof.
  unfold selected, State_Selected. change 32768 with (2 ^ 15).
  destruct (Z.testbit (state option) 15) eqn:Hb.
  - destruct (Z.eqb_spec (Z.land (state option) (2 ^ 15)) 0) as [E | E]; [| reflexivity].
    exfalso. assert (H : Z.testbit (Z.land (state option) (2 ^ 15)) 15 = true).
    { rewrite Z.land_spec, Hb, testbit_pow2 by lia. reflexivity. }
    rewrite E in H. rewrite Z.bits_0 in H. discriminate.
  - destruct (Z.eqb_spec (Z.land (state option) (2 ^ 15)) 0) as [E | E]; [reflexivity |].
    exfalso. apply E. apply Z.bits_inj'. intros n Hn.
    rewrite Z.land_spec, Z.bits_0, testbit_pow2 by lia.
    destruct (Z.eqb_spec 15 n) as [<- | _]; [rewrite Hb; reflexivity | apply andb_false_r].
Qed.

(** X5. [paint] ends in a null dereference exactly when the index has no
    model or the model has no record for the index; the painter, the
    theme, the style option and the delegate play no part in it, and
    neither does the validity of the index: a negative row is passed on
    to the model like any other. *)
Theorem paint_fails_exactly_on_null {Score : Type} {tk : Toolkit Score}
  (theme : Theme) (this : SearchListItemDelegate)
  (option : QStyleOptionViewItem) (index : QModelIndex Score) (p : QPainter) :
  paint theme this option index p = NullDeref
  <-> (model index = None
       \/ exists m, model index = Some m
                    /\ getAnime_at m (row index) (column index) = None).
Proof.
  rewrite paint_cases. unfold getAnime. split.
  - destruct (model index) as [m |]; [| intros _; left; reflexivity].
    destruct (getAnime_at m (row index) (column index)) eqn:Hi; [discriminate |].
    intros _. right. exists m. split; [reflexivity | exact Hi].
  - intros [Hm | (m & Hm & Hi)]; rewrite Hm; [reflexivity |].
    rewrite Hi. reflexivity.
Qed.

Lemma paint_fails_exactly_on_null_witness :
  paint (tk := Reference.toolkit) Reference.light Reference.delegate
    (Reference.cell 364) (Reference.index_at 7) Reference.painter0 = NullDeref.
Proof.
  apply (proj2 (paint_fails_exactly_on_null (tk := Reference.toolkit) Reference.light
                  Reference.delegate (Reference.cell 364) (Reference.index_at 7)
                  Reference.painter0)).
  right. exists Reference.sample_model. split; reflexivity.
Defined.

(** X6. Every drawing call of a paint is issued under the same clip: the
    rounded rectangle of the cell with radius 4; and every call before
    the synopsis is issued with the pen the painter came with. *)
Theorem paint_clip_and_pen {Score : Type} {tk : Toolkit Score}
  (theme : Theme) (this : SearchListItemDelegate)
  (option : QStyleOptionViewItem) (index : QModelIndex Score)
  (m : SearchListModel Score) (item : Anime Score) (p : QPainter) :
  model index = Some m -> getAnime m index = Some item ->
  exists p',
    paint theme this option index p = Ok (tt, p')
    /\ Forall (fun d => clipPath (ctx d) = Some [RoundedRect (rect option) 4 4])
         (added p p')
    /\ Forall (fun d => pen (ctx d) = pen (current p)) (firstn 8 (added p p'))
    /\ List.length (added p p') = 9%nat.
Proof.
  intros Hm Hi.
  destruct (paint_added theme this option index m item p Hm Hi)
    as (p' & Hp & _ & _ & Ha).
  exists p'. split; [exact Hp |]. rewrite Ha. unfold card. cbn [firstn].
  split; [repeat constructor |]. split; [repeat constructor | reflexivity].
Qed.

Lemma paint_clip_and_pen_witness :
  exists p',
    paint (tk := Reference.toolkit) Reference.light Reference.delegate
      (Reference.cell 364) (Reference.index_at 0) Reference.painter0 = Ok (tt, p')
    /\ Forall (fun d => clipPath (ctx d)
                        = Some [RoundedRect (QRect.make 0 0 363 209) 4 4])
         (added Reference.painter0 p').
Proof.
  destruct (paint_clip_and_pen (tk := Reference.toolkit) Reference.light
              Reference.delegate (Reference.cell 364) (Reference.index_at 0)
              Reference.sample_model Reference.frieren Reference.painter0
              eq_refl eq_refl) as (p' & Hp & Hclip & _).
  exists p'. split; [exact Hp | exact Hclip].
Defined.

(** X7. The first call fills the whole cell.  The brush is the highlight
    brush exactly when bit 15 of the option's state (the selected flag) is
    set, whatever the theme; otherwise it is the mid brush under the dark
    theme and the alternate-base brush under the light one. *)
Theorem background_fill {Score : Type} {tk : Toolkit Score}
  (theme : Theme) (this : SearchListItemDelegate)
  (option : QStyleOptionViewItem) (index : QModelIndex Score)
  (m : SearchListModel Score) (item : Anime Score) (p : QPainter) :
  model index = Some m -> getAnime m index = Some item ->
  exists p' c,
    paint theme this option index p = Ok (tt, p')
    /\ nth_error (added p p') 0
       = Some {| ctx := c;
                 call := FillRect (rect option)
                           (if Z.testbit (state option) 15 then highlight (palette option)
                            else if isDark theme then mid (palette option)
                                 else alternateBase (palette option)) |}.
Proof.
  intros Hm Hi.
  destruct (paint_added theme this option index m item p Hm Hi)
    as (p' & Hp & _ & _ & Ha).
  exists p'. eexists. split; [exact Hp |].
  rewrite Ha. unfold card. cbn [nth_error]. rewrite selected_testbit. reflexivity.
Qed.

Lemma background_fill_witness :
  exists p' c,
    paint (tk := Reference.toolkit) {| isDark := true |} Reference.delegate
      {| rect := QRect.of_size 0 0 364 210; state := 32768 + 1;
         palette := Reference.sample_palette |}
      (Reference.index_at 0) Reference.painter0 = Ok (tt, p')
    /\ nth_error (added Reference.painter0 p') 0
       = Some {| ctx := c;
                 call := FillRect (QRect.of_size 0 0 364 210) {| color := 1 |} |}.
Proof.
  destruct (background_fill (tk := Reference.toolkit) {| isDark := true |}
              Reference.delegate
              {| rect := QRect.of_size 0 0 364 210; state := 32768 + 1;
                 palette := Reference.sample_palette |}
              (Reference.index_at 0)
              Reference.sample_model Reference.frieren Reference.painter0
              eq_refl eq_refl) as (p' & c & Hp & H0).
  exists p', c. split; [exact Hp | exact H0].
Defined.

(** X8. The poster band is always 140 wide and as tall as the cell,
    whatever the cell's width: in a cell narrower than 140 it reaches
    beyond the cell's right edge.  It is filled with the dark brush under
    the dark theme and the mid brush otherwise, selected or not, and the
    delegate's pixmap is drawn into that same rectangle. *)
Theorem poster_band {Score : Type} {tk : Toolkit Score}
  (theme : Theme) (this : SearchListItemDelegate)
  (option : QStyleOptionViewItem) (index : QModelIndex Score)
  (m : SearchListModel Score) (item : Anime Score) (p : QPainter) :
  model index = Some m -> getAnime m index = Some item ->
  exists p' c band,
    paint theme this option index p = Ok (tt, p')
    /\ nth_error (added p p') 1
       = Some {| ctx := c;
                 call := FillRect band (if isDark theme then dark (palette option)
                                        else mid (palette option)) |}
    /\ nth_error (added p p') 2
       = Some {| ctx := c; call := DrawPixmap band (m_pixmap this) |}
    /\ QRect.left band = QRect.left (rect option)
    /\ QRect.top band = QRect.top (rect option)
    /\ QRect.width band = 140
    /\ QRect.height band = QRect.height (rect option)
    /\ (QRect.width (rect option) < 140 -> QRect.right (rect option) < QRect.right band).
Proof.
  intros Hm Hi.
  destruct (paint_added theme this option index m item p Hm Hi)
    as (p' & Hp & _ & _ & Ha).
  exists p'. do 2 eexists. split; [exact Hp |].
  rewrite Ha. unfold card. cbn [nth_error].
  destruct (isDark theme);
    (split; [reflexivity |]; split; [reflexivity |]; repeat split; layout).
Qed.

Lemma poster_band_witness :
  exists p' c band,
    paint (tk := Reference.toolkit) Reference.light Reference.delegate
      (Reference.cell 100) (Reference.index_at 0) Reference.painter0 = Ok (tt, p')
    /\ nth_error (added Reference.painter0 p') 2
       = Some {| ctx := c; call := DrawPixmap band None |}
    /\ QRect.right (rect (Reference.cell 100)) < QRect.right band.
Proof.
  destruct (poster_band (tk := Reference.toolkit) Reference.light
              Reference.delegate (Reference.cell 100) (Reference.index_at 0)
              Reference.sample_model Reference.frieren Reference.painter0
              eq_refl eq_refl) as (p' & c & band & Hp & _ & H2 & _ & _ & _ & _ & Hr).
  exists p', c, band. split; [exact Hp |]. split; [exact H2 |].
  apply Hr. vm_compute. reflexivity.
Defined.

(** X9. When the poster file can be read, the delegate's pixmap is that
    image, and each paint draws it exactly once: the third call, into the
    poster band. *)
Theorem poster_image_drawn_once {Score : Type} {tk : Toolkit Score}
  (fs : FileSystem) (parent : option QListView) (img : ImageData)
  (theme : Theme) (option : QStyleOptionViewItem) (index : QModelIndex Score)
  (m : SearchListModel Score) (item : Anime Score) (p : QPainter) :
  fs "./data/poster.jpg" = Some img ->
  model index = Some m -> getAnime m index = Some item ->
  let this := new_SearchListItemDelegate fs parent in
  m_pixmap this = Some img
  /\ exists p' c,
       paint theme this option index p = Ok (tt, p')
       /\ filter (fun d => draws_image (call d)) (added p p')
          = [ {| ctx := c; call := DrawPixmap (QRect.setWidth 140 (rect option)) (Some img) |} ]
       /\ nth_error (added p p') 2
          = Some {| ctx := c;
                    call := DrawPixmap (QRect.setWidth 140 (rect option)) (Some img) |}.
Proof.
  intros Hfs Hm Hi this.
  assert (Hpm : m_pixmap this = Some img).
  { unfold this, new_SearchListItemDelegate, QImageReader_read, fromImage.
    cbn [m_pixmap]. rewrite Hfs. reflexivity. }
  split; [exact Hpm |].
  destruct (paint_added theme this option index m item p Hm Hi)
    as (p' & Hp & _ & _ & Ha).
  exists p'. eexists. split; [exact Hp |].
  rewrite Ha. unfold card. rewrite Hpm. split; reflexivity.
Qed.

Lemma poster_image_drawn_once_witness :
  exists p' c,
    paint (tk := Reference.toolkit) Reference.light
      (new_SearchListItemDelegate
         (fun _ => Some {| image_width := 1; image_height := 1; image_bits := [0] |})
         None)
      (Reference.cell 364) (Reference.index_at 0) Reference.painter0 = Ok (tt, p')
    /\ nth_error (added Reference.painter0 p') 2
       = Some {| ctx := c;
                 call := DrawPixmap (QRect.setWidth 140 (rect (Reference.cell 364)))
                           (Some {| image_width := 1; image_height := 1;
                                    image_bits := [0] |}) |}.
Proof.
  destruct (poster_image_drawn_once (tk := Reference.toolkit)
              (fun _ => Some {| image_width := 1; image_height := 1; image_bits := [0] |})
              None {| image_width := 1; image_height := 1; image_bits := [0] |}
              Reference.light (Reference.cell 364) (Reference.index_at 0)
              Reference.sample_model Reference.frieren Reference.painter0
              eq_refl eq_refl eq_refl) as (_ & p' & c & Hp & _ & H2).
  exists p', c. split; [exact Hp | exact H2].
Defined.

(** X10. The blocks to the right of the poster are stacked with 8 pixels
    between them: the title bar spans the top 24 rows of the cell, the
    summary starts 8 rows below the bar, the two details columns start on
    one row 8 below the summary, and the synopsis starts 8 rows below the
    details. *)
Theorem blocks_stacked_with_gaps {Score : Type} {tk : Toolkit Score}
  (theme : Theme) (this : SearchListItemDelegate)
  (option : QStyleOptionViewItem) (index : QModelIndex Score)
  (m : SearchListModel Score) (item : Anime Score) (p : QPainter) :
  model index = Some m -> getAnime m index = Some item ->
  exists p' c3 bar b c5 r5 t5 c6 r6 t6 c7 r7 t7 c8 r8 t8,
    paint theme this option index p = Ok (tt, p')
    /\ nth_error (added p p') 3 = Some {| ctx := c3; call := FillRect bar b |}
    /\ nth_error (added p p') 5
       = Some {| ctx := c5; call := DrawText r5 (Z.lor AlignVCenter TextSingleLine) t5 |}
    /\ nth_error (added p p') 6 = Some {| ctx := c6; call := DrawText r6 0 t6 |}
    /\ nth_error (added p p') 7 = Some {| ctx := c7; call := DrawText r7 0 t7 |}
    /\ nth_error (added p p') 8 = Some {| ctx := c8; call := DrawText r8 TextWordWrap t8 |}
    /\ QRect.top bar = QRect.top (rect option)
    /\ QRect.bottom bar = QRect.top (rect option) + 23
    /\ QRect.top r5 = QRect.bottom bar + 1 + 8
    /\ QRect.top r6 = QRect.bottom r5 + 1 + 8
    /\ QRect.top r7 = QRect.top r6
    /\ QRect.bottom r7 = QRect.bottom r6
    /\ QRect.top r8 = QRect.bottom r6 + 1 + 8.
Proof.
  intros Hm Hi.
  destruct (paint_added theme this option index m item p Hm Hi)
    as (p' & Hp & _ & _ & Ha).
  exists p'. do 15 eexists. split; [exact Hp |].
  rewrite Ha. unfold card. cbn [nth_error].
  do 5 (split; [reflexivity |]).
  repeat split; layout.
Qed.

Lemma blocks_stacked_with_gaps_witness :
  exists p' c r t,
    paint (tk := Reference.toolkit) Reference.light Reference.delegate
      (Reference.cell 364) (Reference.index_at 0) Reference.painter0 = Ok (tt, p')
    /\ nth_error (added Reference.painter0 p') 8
       = Some {| ctx := c; call := DrawText r TextWordWrap t |}
    /\ QRect.top r = 108.
Proof.
  destruct (blocks_stacked_with_gaps (tk := Reference.toolkit) Reference.light
              Reference.delegate (Reference.cell 364) (Reference.index_at 0)
              Reference.sample_model Reference.frieren Reference.painter0
              eq_refl eq_refl)
    as (p' & c3 & bar & b & c5 & r5 & t5 & c6 & r6 & t6 & c7 & r7 & t7 & c8 & r8 & t8
        & Hp & _ & _ & _ & _ & H8 & _).
  exists p', c8, r8, t8. split; [exact Hp |]. split; [exact H8 |].
  pose proof Hp as Hq. vm_compute in Hq. injection Hq as Hq. subst p'.
  vm_compute in H8. injection H8 as _ Hr _. subst r8. reflexivity.
Defined.

(** X11. All text is laid out between the same two margins: title,
    summary, labels and synopsis start 148 pixels right of the cell's left
    edge (the poster plus 8), and title, summary, values and synopsis end
    8 pixels left of its right edge.  The value column starts 8 pixels
    clear of the label column.  The width the title is elided to is the
    cell width less 156. *)
Theorem text_margins {Score : Type} {tk : Toolkit Score}
  (theme : Theme) (this : SearchListItemDelegate)
  (option : QStyleOptionViewItem) (index : QModelIndex Score)
  (m : SearchListModel Score) (item : Anime Score) (p : QPainter) :
  model index = Some m -> getAnime m index = Some item ->
  exists p' c4 r4 t4 c5 r5 t5 c6 r6 t6 c7 r7 t7 c8 r8 t8,
    paint theme this option index p = Ok (tt, p')
    /\ nth_error (added p p') 4
       = Some {| ctx := c4;
                 call := DrawText r4 (Z.lor AlignVCenter TextSingleLine) t4 |}
    /\ t4 = fm_elidedText (font c4) (data_DisplayRole index) ElideRight
              (QRect.width (rect option) - 156)
    /\ nth_error (added p p') 5
       = Some {| ctx := c5; call := DrawText r5 (Z.lor AlignVCenter TextSingleLine) t5 |}
    /\ nth_error (added p p') 6 = Some {| ctx := c6; call := DrawText r6 0 t6 |}
    /\ nth_error (added p p') 7 = Some {| ctx := c7; call := DrawText r7 0 t7 |}
    /\ nth_error (added p p') 8 = Some {| ctx := c8; call := DrawText r8 TextWordWrap t8 |}
    /\ (let l := QRect.left (rect option) + 148 in
        QRect.left r4 = l /\ QRect.left r5 = l /\ QRect.left r6 = l /\ QRect.left r8 = l)
    /\ (let r := QRect.right (rect option) - 8 in
        QRect.right r4 = r /\ QRect.right r5 = r /\ QRect.right r7 = r /\ QRect.right r8 = r)
    /\ QRect.left r7 = QRect.right r6 + 1 + 8
    /\ QRect.width r4 = QRect.width (rect option) - 156.
Proof.
  intros Hm Hi.
  destruct (paint_added theme this option index m item p Hm Hi)
    as (p' & Hp & _ & _ & Ha).
  exists p'. do 15 eexists. split; [exact Hp |].
  rewrite Ha. unfold card. cbn [nth_error].
  assert (Hw : QRect.width (titleRect option) = QRect.width (rect option) - 156)
    by layout.
  split; [reflexivity |].
  split; [rewrite <- Hw; reflexivity |].
  do 4 (split; [reflexivity |]).
  repeat split; layout.
Qed.

Lemma text_margins_witness :
  exists p',
    paint (tk := Reference.toolkit) Reference.light Reference.delegate
      (Reference.cell 146) (Reference.index_at 0) Reference.painter0 = Ok (tt, p')
    /\ nth_error (texts (added Reference.painter0 p')) 0 = Some "".
Proof.
  destruct (text_margins (tk := Reference.toolkit) Reference.light
              Reference.delegate (Reference.cell 146) (Reference.index_at 0)
              Reference.sample_model Reference.frieren Reference.painter0
              eq_refl eq_refl)
    as (p' & Hrest).
  destruct Hrest as (c4 & r4 & t4 & c5 & r5 & t5 & c6 & r6 & t6 & c7 & r7 & t7
                     & c8 & r8 & t8 & Hp & _).
  exists p'. split; [exact Hp |].
  pose proof Hp as Hq. vm_compute in Hq. injection Hq as Hq. subst p'.
  reflexivity.
Defined.

(** X12. The synopsis rectangle never reaches into the 8-pixel padding at
    the bottom of the cell, whatever the fonts measure; it is empty when
    the details block has already reached that padding. *)
Theorem synopsis_stays_above_bottom_padding {Score : Type} {tk : Toolkit Score}
  (theme : Theme) (this : SearchListItemDelegate)
  (option : QStyleOptionViewItem) (index : QModelIndex Score)
  (m : SearchListModel Score) (item : Anime Score) (p : QPainter) :
  model index = Some m -> getAnime m index = Some item ->
  exists p' c6 r6 c8 r8,
    paint theme this option index p = Ok (tt, p')
    /\ nth_error (added p p') 6 = Some {| ctx := c6; call := DrawText r6 0 titles |}
    /\ nth_error (added p p') 8
       = Some {| ctx := c8; call := DrawText r8 TextWordWrap (synopsis item) |}
    /\ QRect.bottom r8 <= QRect.bottom (rect option) - 8
    /\ (QRect.bottom (rect option) - 8 <= QRect.bottom r6 + 8 -> QRect.height r8 <= 0).
Proof.
  intros Hm Hi.
  destruct (paint_added theme this option index m item p Hm Hi)
    as (p' & Hp & _ & _ & Ha).
  exists p'. do 4 eexists. split; [exact Hp |].
  rewrite Ha. unfold card. cbn [nth_error].
  do 2 (split; [reflexivity |]).
  split; layout.
Qed.

Lemma synopsis_stays_above_bottom_padding_witness :
  exists p' c r,
    paint (tk := Reference.toolkit) Reference.light Reference.delegate
      {| rect := QRect.of_size 0 0 364 100; state := 0;
         palette := Reference.sample_palette |}
      (Reference.index_at 0) Reference.painter0 = Ok (tt, p')
    /\ nth_error (added Reference.painter0 p') 8
       = Some {| ctx := c; call := DrawText r TextWordWrap (synopsis Reference.frieren) |}
    /\ QRect.height r <= 0.
Proof.
  destruct (synopsis_stays_above_bottom_padding (tk := Reference.toolkit) Reference.light
              Reference.delegate
              {| rect := QRect.of_size 0 0 364 100; state := 0;
                 palette := Reference.sample_palette |}
              (Reference.index_at 0)
              Reference.sample_model Reference.frieren Reference.painter0
              eq_refl eq_refl)
    as (p' & c6 & r6 & c8 & r8 & Hp & H6 & H8 & _ & Hempty).
  exists p', c8, r8. split; [exact Hp |]. split; [exact H8 |].
  apply Hempty.
  pose proof Hp as Hq. vm_compute in Hq. injection Hq as Hq. subst p'.
  vm_compute in H6. injection H6 as _ Hr. subst r6.
  vm_compute. discriminate.
Defined.

(** X13. The five texts are drawn in fonts derived from the one the
    painter came with: title and labels at demi-bold weight, summary in
    the font unchanged, values at normal weight, synopsis at normal weight
    and 8 points.  The summary rectangle is one line of the demi-bold
    title font high, although the summary is drawn in the unchanged
    font. *)
Theorem fonts_of_the_texts {Score : Type} {tk : Toolkit Score}
  (theme : Theme) (this : SearchListItemDelegate)
  (option : QStyleOptionViewItem) (index : QModelIndex Score)
  (m : SearchListModel Score) (item : Anime Score) (p : QPainter) :
  model index = Some m -> getAnime m index = Some item ->
  let f := font (current p) in
  exists p' r4 t4 r5 t5 r6 t6 r7 t7 r8 t8 c4 c5 c6 c7 c8,
    paint theme this option index p = Ok (tt, p')
    /\ map (fun d => (font (ctx d), call d)) (skipn 4 (added p p'))
       = [ (c4, DrawText r4 (Z.lor AlignVCenter TextSingleLine) t4);
           (c5, DrawText r5 (Z.lor AlignVCenter TextSingleLine) t5);
           (c6, DrawText r6 0 t6);
           (c7, DrawText r7 0 t7);
           (c8, DrawText r8 TextWordWrap t8) ]
    /\ c4 = QFont.make (QFont.family f) (QFont.pointSize f) QFont.DemiBold
    /\ c5 = f
    /\ c6 = QFont.make (QFont.family f) (QFont.pointSize f) QFont.DemiBold
    /\ c7 = QFont.make (QFont.family f) (QFont.pointSize f) QFont.Normal
    /\ c8 = QFont.make (QFont.family f) 8 QFont.Normal
    /\ QRect.height r5 = fm_height c4.
Proof.
  intros Hm Hi f.
  destruct (paint_added theme this option index m item p Hm Hi)
    as (p' & Hp & _ & _ & Ha).
  exists p'. do 15 eexists. split; [exact Hp |].
  rewrite Ha. unfold card. cbn [skipn map ctx call font].
  split; [reflexivity |].
  repeat split; layout.
Qed.

Lemma fonts_of_the_texts_witness :
  exists p',
    paint (tk := Reference.toolkit) Reference.light Reference.delegate
      (Reference.cell 364) (Reference.index_at 0) Reference.painter0 = Ok (tt, p')
    /\ map (fun d => QFont.weight (font (ctx d))) (skipn 4 (added Reference.painter0 p'))
       = [600; 400; 600; 400; 400].
Proof.
  destruct (fonts_of_the_texts (tk := Reference.toolkit) Reference.light
              Reference.delegate (Reference.cell 364) (Reference.index_at 0)
              Reference.sample_model Reference.frieren Reference.painter0
              eq_refl eq_refl)
    as (p' & Hrest).
  destruct Hrest as (r4 & t4 & r5 & t5 & r6 & t6 & r7 & t7 & r8 & t8
                     & c4 & c5 & c6 & c7 & c8 & Hp & _).
  exists p'. split; [exact Hp |].
  pose proof Hp as Hq. vm_compute in Hq. injection Hq as Hq. subst p'.
  reflexivity.
Defined.
